(** * MedSecure / AppShield: the risk-scoring core

    A shallow embedding of [medsecure/nlp_risk.py] (permission grouping,
    policy-claim extraction, privacy-risk scoring) and of
    [medsecure/tracker_analysis.py] (tracker list loading and domain
    classification), with the properties the specification states about them.

    Conventions of the embedding:
    - a Python [str] is a [string]; each character is a code point below 256,
      and [lower], [strip] follow Python's tables on that range;
    - a Python [int] is a [Z]; a [float] is a binary64 [float];
    - a [dict] is a [gmap] (Python compares dicts without regard to insertion
      order), a [set] is a [gset];
    - code that reads or writes the module globals, logs, or may raise runs in
      the monad [M] below. *)

From Stdlib Require Import ZArith Ascii String List Floats.
From stdpp Require Import base option list gmap strings sorting fin_maps fin_sets.

Local Open Scope string_scope.
Local Open Scope Z_scope.

(** ** Python string operations *)

Module PyStr.

(** [len(s)] *)
Definition len (s : string) : Z := Z.of_nat (String.length s).

(** One character of [str.lower()]: A-Z, and the Latin-1 capitals
    U+00C0..U+00DE without the multiplication sign U+00D7. *)
Definition lower_char (c : ascii) : ascii :=
  let n := N_of_ascii c in
  if ((65 <=? n) && (n <=? 90) || (192 <=? n) && (n <=? 222) && negb (n =? 215))%N
  then ascii_of_N (n + 32) else c.

(** [s.lower()] *)
Fixpoint lower (s : string) : string :=
  match s with
  | EmptyString => EmptyString
  | String c s' => String (lower_char c) (lower s')
  end.

(** [c.isspace()]: TAB..CR, FS..US, SPACE, NEL and NBSP. *)
Definition isspace (c : ascii) : bool :=
  let n := N_of_ascii c in
  ((9 <=? n) && (n <=? 13) || (28 <=? n) && (n <=? 32) || (n =? 133) || (n =? 160))%N.

(** [s.lstrip()] *)
Fixpoint lstrip (s : string) : string :=
  match s with
  | EmptyString => EmptyString
  | String c s' => if isspace c then lstrip s' else s
  end.

(** [s.rstrip()] *)
Fixpoint rstrip (s : string) : string :=
  match s with
  | EmptyString => EmptyString
  | String c s' =>
      match rstrip s' with
      | EmptyString => if isspace c then EmptyString else String c EmptyString
      | r => String c r
      end
  end.

(** [s.strip()] *)
Definition strip (s : string) : string := rstrip (lstrip s).

(** [s.startswith(p)] *)
Fixpoint startswith (s p : string) {struct p} : bool :=
  match p, s with
  | EmptyString, _ => true
  | String a p', String b s' => if Ascii.eqb a b then startswith s' p' else false
  | String _ _, EmptyString => false
  end.

(** [p in s]: [p] occurs in [s] at some position. *)
Fixpoint contains (p s : string) : bool :=
  startswith s p ||
  match s with
  | EmptyString => false
  | String _ s' => contains p s'
  end.

(** [s.endswith(p)]: [p] is one of the tails of [s]. *)
Fixpoint endswith (s p : string) : bool :=
  String.eqb s p ||
  match s with
  | EmptyString => false
  | String _ s' => endswith s' p
  end.

(** [s.split(sep)] for a one-character separator; never the empty list. *)
Fixpoint split (sep : ascii) (s : string) : list string :=
  match s with
  | EmptyString => [EmptyString]
  | String c s' =>
      if Ascii.eqb c sep then EmptyString :: split sep s'
      else match split sep s' with
           | h :: t => String c h :: t
           | [] => [String c EmptyString]
           end
  end.

(** [l[-1]] on a list of strings known to be non-empty. *)
Definition last_item (l : list string) : string := List.last l EmptyString.

(** [bool(s)]: a string is truthy when it is not empty. *)
Definition truthy (s : string) : bool :=
  match s with EmptyString => false | _ => true end.

(** ["x" * n] *)
Fixpoint repeat (s : string) (n : nat) : string :=
  match n with
  | O => EmptyString
  | S n' => s ++ repeat s n'
  end.

End PyStr.

(** ** nlp_risk.py: permission groups *)

Definition SENSITIVE_PERMISSION_GROUPS : list (string * list string) :=
  [ ("location",
      ["ACCESS_FINE_LOCATION"; "ACCESS_COARSE_LOCATION"; "ACCESS_BACKGROUND_LOCATION";
       "ACCESS_MEDIA_LOCATION"; "ACCESS_WIFI_STATE"; "NEARBY_WIFI_DEVICES"]);
    ("contacts",
      ["READ_CONTACTS"; "WRITE_CONTACTS"; "GET_ACCOUNTS"; "READ_PROFILE"]);
    ("camera",
      ["CAMERA"; "CAPTURE_VIDEO_OUTPUT"; "FOREGROUND_SERVICE_CAMERA"]);
    ("microphone",
      ["RECORD_AUDIO"; "FOREGROUND_SERVICE_MICROPHONE"]);
    ("storage_media",
      ["READ_EXTERNAL_STORAGE"; "WRITE_EXTERNAL_STORAGE";
       "READ_MEDIA_IMAGES"; "READ_MEDIA_VIDEO"; "READ_MEDIA_VISUAL_USER_SELECTED";
       "MANAGE_EXTERNAL_STORAGE"]);
    ("phone",
      ["READ_PHONE_STATE"; "READ_PHONE_NUMBERS"; "CALL_PHONE";
       "READ_CALL_LOG"; "ANSWER_PHONE_CALLS"; "MANAGE_OWN_CALLS"]);
    ("ads_tracking",
      ["AD_ID"; "ACCESS_ADSERVICES_AD_ID"; "ACCESS_ADSERVICES_ATTRIBUTION"]) ].

(** [{k: v for k, v in pairs}]: a later pair overrides an earlier one. *)
Definition dict_of {V} (pairs : list (string * V)) : gmap string V :=
  foldl (fun d kv => <[kv.1 := kv.2]> d) ∅ pairs.

(** [d.get(k, dflt)] *)
Definition dict_get {V} (d : gmap string V) (k : string) (dflt : V) : V :=
  default dflt (d !! k).

(** The test of line 119: [any(suffix == p or suffix.endswith(p) for p in perm_suffixes)]. *)
Definition suffix_matches (suffix : string) (perm_suffixes : list string) : bool :=
  existsb (fun p => String.eqb suffix p || PyStr.endswith suffix p) perm_suffixes.

(** The body of the outer loop of [group_permissions], for one permission. *)
Definition mark_groups (used_groups : gmap string bool) (perm : string) : gmap string bool :=
  let suffix := PyStr.last_item (PyStr.split "." perm) in
  foldl (fun used gs =>
           if suffix_matches suffix gs.2 then <[gs.1 := true]> used else used)
        used_groups SENSITIVE_PERMISSION_GROUPS.

Definition group_permissions (permissions : list string) : gmap string bool :=
  let used_groups := dict_of (map (fun gs => (gs.1, false)) SENSITIVE_PERMISSION_GROUPS) in
  foldl mark_groups used_groups permissions.

(** [l.append(x)] *)
Definition append {A} (l : list A) (x : A) : list A := (l ++ [x])%list.

(** ** Effects: module globals, the log, exceptions *)

(** A call either returns or raises an [Exception] (carried as its message). *)
Inductive outcome (A : Type) : Type :=
  | Returned (a : A)
  | Raised (e : string).
Arguments Returned {A} a.
Arguments Raised {A} e.

(** What the zero-shot pipeline hands back: [res["labels"]] and [res["scores"]];
    [None] is a missing key, whose lookup raises [KeyError]. *)
Record zs_output : Type := {
  res_labels : option (list string);
  res_scores : option (list float);
}.

(** The pipeline object, as it is called on line 64:
    [classifier(policy_text, candidate_labels, multi_label=True, truncation=True)]. *)
Definition classifier : Type := string -> list string -> outcome zs_output.

(** The [transformers] package as the module sees it: the import followed by
    [pipeline(task, model=..., device=...)]; it may raise, and it may return
    [None]. *)
Record environment : Type := {
  pipeline : string -> string -> Z -> outcome (option classifier);
}.

(** The module global [_ZS_CLASSIFIER] and the records written by [logging.warning]. *)
Record globals : Type := {
  _ZS_CLASSIFIER : option classifier;
  warnings : list string;
}.

Definition M (A : Type) : Type := globals -> outcome A * globals.

#[global] Instance M_ret : MRet M := fun A a g => (Returned a, g).

#[global] Instance M_bind : MBind M := fun A B k m g =>
  match m g with
  | (Returned a, g') => k a g'
  | (Raised e, g') => (Raised e, g')
  end.

Definition raise {A} (e : string) : M A := fun g => (Raised e, g).

(** [try: body except Exception as e: handler]; what the body wrote before it
    raised stays written. *)
Definition try_except {A} (body : M A) (handler : string -> M A) : M A :=
  fun g => match body g with
           | (Returned a, g') => (Returned a, g')
           | (Raised e, g') => handler e g'
           end.

(** The outcome of a call made from the module. *)
Definition call {A} (o : outcome A) : M A := fun g => (o, g).

Definition read_classifier : M (option classifier) :=
  fun g => (Returned (_ZS_CLASSIFIER g), g).

Definition write_classifier (c : option classifier) : M unit :=
  fun g => (Returned tt, {| _ZS_CLASSIFIER := c; warnings := warnings g |}).

Definition logging_warning (msg : string) : M unit :=
  fun g => (Returned tt, {| _ZS_CLASSIFIER := _ZS_CLASSIFIER g;
                            warnings := append (warnings g) msg |}).

(** [d[k]] on an optional entry: [KeyError] when absent. *)
Definition subscript {A} (key : string) (v : option A) : M A :=
  match v with
  | Some a => mret a
  | None => raise ("KeyError: " ++ key)
  end.

(** ** nlp_risk.py: claim extraction *)

(** [any(word in text for word in words)] *)
Definition any_word_in (text : string) (words : list string) : bool :=
  existsb (fun word => PyStr.contains word text) words.

Definition _keyword_extract_claims (policy_text : string) : gmap string bool :=
  let text := PyStr.lower policy_text in
  dict_of
    [ ("mentions_location", any_word_in text ["location"; "geolocation"; "gps"; "locational data"]);
      ("mentions_contacts", any_word_in text ["contacts"; "address book"; "contact list"]);
      ("mentions_camera", any_word_in text ["camera"; "photos"; "take pictures"; "video recording"]);
      ("mentions_microphone", any_word_in text ["microphone"; "audio recording"; "voice recording"]);
      ("mentions_storage", any_word_in text ["storage"; "files on your device"; "media files"; "photos and videos"]);
      ("mentions_phone", any_word_in text ["phone number"; "call log"; "telephony"]);
      ("mentions_ads_tracking", any_word_in text ["advertising id"; "ads"; "ad partners"; "personalized ads"; "analytics partners"]);
      ("mentions_third_parties", any_word_in text ["third parties"; "partners"; "service providers"; "affiliates"]);
      ("mentions_security", any_word_in text ["encrypt"; "security"; "protect your data"; "secure"; "safeguard"]) ].

Definition _ZS_MODEL_NAME : string := "facebook/bart-large-mnli".

Definition _init_zero_shot (env : environment) : M bool :=
  cur ← read_classifier;
  match cur with
  | Some _ => mret true
  | None =>
      try_except
        (c ← call (pipeline env "zero-shot-classification" _ZS_MODEL_NAME (-1));
         write_classifier c;;
         mret true)
        (fun e =>
           logging_warning ("Zero-shot init failed: " ++ e);;
           write_classifier None;;
           mret false)
  end.

Definition candidate_labels : list string :=
  [ "collects location data";
    "collects contact data";
    "collects camera or photos";
    "collects microphone or audio";
    "collects storage or files";
    "collects phone numbers or call logs";
    "uses advertising ids or tracking";
    "shares data with third parties or partners";
    "mentions security or encryption" ].

(** The threshold [0.35] as the binary64 value Python reads it as. *)
Definition threshold : float := 0x1.6666666666666p-2%float.

(** [label_true] of line 68: [labels.get(s, 0.0) >= 0.35]. *)
Definition label_true (labels : gmap string float) (s : string) : bool :=
  PrimFloat.leb threshold (dict_get labels s 0%float).

(** Lines 66 to 80: the claim set read off a classifier result. *)
Definition zero_shot_claims (labs : list string) (scs : list float) : gmap string bool :=
  let labels := dict_of (zip labs scs) in
  dict_of
    [ ("mentions_location", label_true labels "collects location data");
      ("mentions_contacts", label_true labels "collects contact data");
      ("mentions_camera", label_true labels "collects camera or photos");
      ("mentions_microphone", label_true labels "collects microphone or audio");
      ("mentions_storage", label_true labels "collects storage or files");
      ("mentions_phone", label_true labels "collects phone numbers or call logs");
      ("mentions_ads_tracking", label_true labels "uses advertising ids or tracking");
      ("mentions_third_parties", label_true labels "shares data with third parties or partners");
      ("mentions_security", label_true labels "mentions security or encryption") ].

(** The [try] block of [extract_policy_claims], lines 51 to 80. *)
Definition zero_shot_attempt (c : classifier) (policy_text : string) : M (gmap string bool) :=
  res ← call (c policy_text candidate_labels);
  labs ← subscript "labels" (res_labels res);
  scs ← subscript "scores" (res_scores res);
  mret (zero_shot_claims labs scs).

Definition extract_policy_claims (env : environment) (policy_text : string)
  : M (gmap string bool) :=
  if negb (PyStr.truthy policy_text) || (PyStr.len (PyStr.strip policy_text) <? 20)
  then mret (_keyword_extract_claims (if PyStr.truthy policy_text then policy_text else ""))
  else
    ok ← _init_zero_shot env;
    cur ← read_classifier;
    match ok, cur with
    | true, Some c =>
        try_except
          (zero_shot_attempt c policy_text)
          (fun e =>
             logging_warning ("Zero-shot classification error: " ++ e);;
             mret (_keyword_extract_claims policy_text))
    | _, _ => mret (_keyword_extract_claims policy_text)
    end.

(** ** nlp_risk.py: the risk scorer *)

Record risk_assessment : Type := {
  score : Z;
  level : string;
  reasons : list string;
  claims : gmap string bool;
  used_groups : gmap string bool;
}.

(** The local function [check]; [risk_points] and [reasons] are the enclosing
    variables it updates. *)
Definition check (used claimed : gmap string bool) (acc : Z * list string)
    (group_key claim_key label : string) (weight : Z) : Z * list string :=
  let '(risk_points, reasons) := acc in
  if dict_get used group_key false && negb (dict_get claimed claim_key false)
  then (risk_points + weight,
        append reasons ("App accesses " ++ label ++ ", but the privacy policy does not clearly mention it."))
  else (risk_points, reasons).

(** [sum(1 for v in used_groups.values() if v)] *)
Definition num_groups_used (used : gmap string bool) : Z :=
  map_fold (fun _ (v : bool) n => if v then 1 + n else n) 0 used.

(** Lines 137 to 176: the penalties, before any clamp. *)
Definition accumulate_risk (claimed used : gmap string bool) : Z * list string :=
  let acc : Z * list string := (0, []) in
  let n := num_groups_used used in
  let acc :=
    if 5 <=? n then
      (acc.1 + 20, append acc.2 "App uses many categories of sensitive data (high data exposure surface).")
    else if 3 <=? n then
      (acc.1 + 10, append acc.2 "App uses multiple types of sensitive data.")
    else if 1 <=? n then
      (acc.1 + 5, append acc.2 "App accesses at least one type of sensitive data.")
    else acc in
  let acc := check used claimed acc "location" "mentions_location" "location data" 10 in
  let acc := check used claimed acc "contacts" "mentions_contacts" "contacts" 10 in
  let acc := check used claimed acc "camera" "mentions_camera" "camera" 10 in
  let acc := check used claimed acc "microphone" "mentions_microphone" "microphone/audio" 10 in
  let acc := check used claimed acc "storage_media" "mentions_storage" "media/storage" 7 in
  let acc := check used claimed acc "phone" "mentions_phone" "phone/call information" 7 in
  let acc := check used claimed acc "ads_tracking" "mentions_ads_tracking" "advertising IDs / tracking" 7 in
  let acc :=
    if dict_get used "ads_tracking" false then
      (acc.1 + 5, append acc.2 "App uses advertising IDs / tracking, which increases profiling and behavioral targeting risk.")
    else acc in
  let acc :=
    if negb (dict_get claimed "mentions_third_parties" false) then
      (acc.1 + 8, append acc.2 "Privacy policy does not clearly describe sharing with third parties or partners.")
    else acc in
  let acc :=
    if negb (dict_get claimed "mentions_security" false) then
      (acc.1 + 5, append acc.2 "Privacy policy does not mention data security or protection measures clearly.")
    else acc in
  acc.

(** Lines 178 and 179. *)
Definition clamp_risk_points (risk_points : Z) : Z :=
  if 90 <? risk_points then 90 else risk_points.

(** Lines 183 to 188. *)
Definition level_of_score (score : Z) : string :=
  if 75 <=? score then "LOW"
  else if 50 <=? score then "MEDIUM"
  else "HIGH".

Definition compute_privacy_risk (env : environment) (permissions : list string)
    (policy_text : string) : M risk_assessment :=
  if negb (PyStr.truthy policy_text) || (PyStr.len (PyStr.strip policy_text) <? 50)
  then
    mret {| score := 25;
           level := "HIGH";
           reasons := ["No or insufficient privacy policy text available for analysis."];
           claims := ∅;
           used_groups := group_permissions permissions |}
  else
    claimed ← extract_policy_claims env policy_text;
    let used := group_permissions permissions in
    let '(risk_points, reasons) := accumulate_risk claimed used in
    let risk_points := clamp_risk_points risk_points in
    let score := Z.max 0 (100 - risk_points) in
    let level := level_of_score score in
    let reasons :=
      match reasons with
      | [] => ["No major mismatches or privacy concerns detected based on available information."]
      | _ => reasons
      end in
    mret {| score := score;
           level := level;
           reasons := reasons;
           claims := claimed;
           used_groups := used |}.

(** ** tracker_analysis.py *)

(** A row of [csv.DictReader]: a field the line is too short for reads [None]. *)
Definition csv_row : Type := gmap string (option string).

(** The loop of lines 20 to 24; [None.strip()] raises [AttributeError]. *)
Fixpoint read_rows (rows : list csv_row) (trackers : list (string * string))
  : outcome (list (string * string)) :=
  match rows with
  | [] => Returned trackers
  | row :: rest =>
      match dict_get row "domain" (Some ""), dict_get row "category" (Some "tracker") with
      | Some d, Some c =>
          let dom := PyStr.lower (PyStr.strip d) in
          let cat := PyStr.lower (PyStr.strip c) in
          read_rows rest (if PyStr.truthy dom then append trackers (dom, cat) else trackers)
      | _, _ => Raised "AttributeError: 'NoneType' object has no attribute 'strip'"
      end
  end.

Definition fallback_trackers : list (string * string) :=
  [ ("doubleclick.net", "ads");
    ("google-analytics.com", "analytics");
    ("googlesyndication.com", "ads");
    ("firebaseio.com", "backend");
    ("facebook.com", "social") ].

(** [file] is what opening and parsing [trackers.csv] gives: its rows, or the
    exception raised on the way. *)
Definition load_tracker_list (file : outcome (list csv_row)) : list (string * string) :=
  let body :=
    match file with
    | Returned rows => read_rows rows []
    | Raised e => Raised e
    end in
  match body with
  | Returned trackers => trackers
  | Raised _ => fallback_trackers
  end.

(** The inner loop of [classify_domains], lines 100 to 105: [matched_category]
    when the loop ends, [None] when no pattern matched. *)
Fixpoint matched_category (TRACKER_PATTERNS : list (string * string)) (dom : string)
  : option string :=
  match TRACKER_PATTERNS with
  | [] => None
  | (pattern, category) :: rest =>
      if PyStr.contains pattern dom then Some category
      else matched_category rest dom
  end.


(** One turn of the outer loop, lines 99 to 109, on the two dictionaries. *)
Definition classify_step (TRACKER_PATTERNS : list (string * string)) (dom : string)
    (acc : gmap string string * gmap string Z) : gmap string string * gmap string Z :=
  let '(tracker_domains, category_counts) := acc in
  match matched_category TRACKER_PATTERNS dom with
  | Some category =>
      if PyStr.truthy category then
        (<[dom := category]> tracker_domains,
         <[category := dict_get category_counts category 0 + 1]> category_counts)
      else acc
  | None => acc
  end.

Record tracker_summary : Type := {
  all_domains : list string;
  tracker_domains : gmap string string;
  num_domains : Z;
  num_trackers : Z;
  category_counts : gmap string Z;
  risk_level : string;
}.

(** The order [sorted] puts strings in. *)
Definition str_le (a b : string) : Prop := String.leb a b = true.

#[global] Instance str_le_dec a b : Decision (str_le a b).
Proof. unfold str_le. apply _. Defined.

(** Lines 114 to 121. *)
Definition risk_level_of (num_trackers : Z) : string :=
  if num_trackers =? 0 then "LOW"
  else if num_trackers <=? 3 then "MEDIUM"
  else if num_trackers <=? 10 then "MEDIUM"
  else "HIGH".

Definition classify_domains (TRACKER_PATTERNS : list (string * string))
    (domains : gset string) : tracker_summary :=
  let '(tracker_domains, category_counts) :=
    set_fold (classify_step TRACKER_PATTERNS) (∅, ∅) domains in
  let num_trackers := Z.of_nat (size tracker_domains) in
  let num_domains := Z.of_nat (size domains) in
  {| all_domains := merge_sort str_le (elements domains);
     tracker_domains := tracker_domains;
     num_domains := num_domains;
     num_trackers := num_trackers;
     category_counts := category_counts;
     risk_level := risk_level_of num_trackers |}.


(** ** Further string and bytes operations *)

Module PyStrExt.

(** [s[n:]] *)
Fixpoint drop (n : nat) (s : string) : string :=
  match n, s with
  | O, _ => s
  | S n', String _ s' => drop n' s'
  | S _, EmptyString => EmptyString
  end.

(** [s.split(sep, 1)[0]] for a one-character separator: the text before the
    first [sep], the whole of [s] when there is none. *)
Fixpoint before_first (sep : ascii) (s : string) : string :=
  match s with
  | EmptyString => EmptyString
  | String c s' => if Ascii.eqb c sep then EmptyString else String c (before_first sep s')
  end.

(** [sep in s] for a one-character [sep]. *)
Fixpoint has_char (sep : ascii) (s : string) : bool :=
  match s with
  | EmptyString => false
  | String c s' => Ascii.eqb c sep || has_char sep s'
  end.

(** [\s] in a bytes pattern: space, TAB, LF, VT, FF, CR. *)
Definition is_ascii_space (c : ascii) : bool :=
  let n := N_of_ascii c in
  ((9 <=? n) && (n <=? 13) || (n =? 32))%N.

End PyStrExt.

(** ** tracker_analysis.py: URL scanning and domain extraction *)

(** The character class of [URL_PATTERN]: any byte but white space, the two
    quotes (34, 39) and the angle brackets (60, 62). *)
Definition url_byte (c : ascii) : bool :=
  let n := N_of_ascii c in
  negb (PyStrExt.is_ascii_space c || (n =? 34) || (n =? 39) || (n =? 60) || (n =? 62))%N.

(** The longest run of [url_byte] at the head of [data]: what the greedy
    repetition of the class consumes. *)
Fixpoint url_run (data : string) : string :=
  match data with
  | EmptyString => EmptyString
  | String c rest => if url_byte c then String c (url_run rest) else EmptyString
  end.

(** [URL_PATTERN] tried at the head of [data] after the literal [scheme]: the
    scheme and a run of at least one byte. *)
Definition match_scheme (scheme data : string) : option string :=
  if PyStr.startswith data scheme then
    match url_run (PyStrExt.drop (String.length scheme) data) with
    | EmptyString => None
    | run => Some (scheme ++ run)
    end
  else None.

(** [URL_PATTERN.match(data)]: [http], an optional [s], [://], then the
    class once or more. The optional [s] is tried first, and without it [://]
    has to follow [http]. *)
Definition URL_PATTERN_match (data : string) : option string :=
  match match_scheme "https://" data with
  | Some m => Some m
  | None => match_scheme "http://" data
  end.

(** [URL_PATTERN.findall(data)]: matches from left to right, the search going
    on where the last match ended; [skip] counts the bytes of the last match
    still to pass. *)
Fixpoint findall_from (skip : nat) (data : string) : list string :=
  match data with
  | EmptyString => []
  | String _ rest =>
      match skip with
      | S skip' => findall_from skip' rest
      | O =>
          match URL_PATTERN_match data with
          | Some m => m :: findall_from (String.length m - 1) rest
          | None => findall_from 0 rest
          end
      end
  end.

Definition URL_PATTERN_findall (data : string) : list string := findall_from 0 data.

(** What the module takes from the standard library: [bytes.decode("utf-8",
    errors="ignore")], which never raises, and the [netloc] of
    [urllib.parse.urlparse], which may raise [ValueError]. *)
Record url_library : Type := {
  decode_ignore : string -> string;
  urlparse_netloc : string -> outcome string;
}.

Definition _clean_domain (lib : url_library) (url : string) : string :=
  match urlparse_netloc lib url with
  | Returned netloc =>
      let host := PyStr.lower netloc in
      let host := if PyStrExt.has_char ":" host then PyStrExt.before_first ":" host else host in
      let host := if PyStr.startswith host "www." then PyStrExt.drop 4 host else host in
      host
  | Raised _ => EmptyString
  end.

(** A member of the archive as the loop reads it: [info.is_dir()],
    [info.filename], [info.file_size] and the outcome of [zf.read(info)]. *)
Record zip_entry : Type := {
  is_dir : bool;
  filename : string;
  file_size : Z;
  read : outcome string;
}.

Definition SKIPPED_EXTENSIONS : list string :=
  [ ".so"; ".png"; ".jpg"; ".jpeg"; ".webp";
    ".gif"; ".mp3"; ".mp4"; ".ogg"; ".wav";
    ".ttf"; ".otf"; ".ico"; ".pdf" ].

(** The loop over the matches of one entry, lines 80 to 87. *)
Definition add_domains (lib : url_library) (matches : list string)
    (domains : gset string) : gset string :=
  foldl (fun domains m =>
           let url := decode_ignore lib m in
           let domain := _clean_domain lib url in
           if PyStr.truthy domain then {[domain]} ∪ domains else domains)
        domains matches.

(** One turn of the loop over the entries, lines 57 to 87. *)
Definition scan_entry (lib : url_library) (max_file_size : Z)
    (domains : gset string) (info : zip_entry) : gset string :=
  if is_dir info then domains
  else
    let name := PyStr.lower (filename info) in
    if existsb (PyStr.endswith name) SKIPPED_EXTENSIONS then domains
    else if max_file_size <? file_size info then domains
    else
      match read info with
      | Raised _ => domains
      | Returned data => add_domains lib (URL_PATTERN_findall data) domains
      end.

(** [archive] is what opening the file as a zip and listing it gives: its
    entries, or the exception raised. *)
Definition extract_domains_from_apk (lib : url_library)
    (archive : outcome (list zip_entry)) (max_file_size : Z) : gset string :=
  match archive with
  | Returned entries => foldl (scan_entry lib max_file_size) ∅ entries
  | Raised _ => ∅
  end.

(** The default of [max_file_size]. *)
Definition default_max_file_size : Z := 2000000.

Definition analyze_trackers (lib : url_library) (TRACKER_PATTERNS : list (string * string))
    (archive : outcome (list zip_entry)) : tracker_summary :=
  let domains := extract_domains_from_apk lib archive default_max_file_size in
  classify_domains TRACKER_PATTERNS domains.

(** ** apk_analysis.py *)

(** The values a parsed manifest is made of: strings, dictionaries, lists and
    [None]. *)
#[warnings="-register-all"]
Inductive manifest_value : Type :=
  | MStr (s : string)
  | MDict (d : gmap string manifest_value)
  | MList (l : list manifest_value)
  | MNone.

(** [bool(v)] *)
Definition value_truthy (v : manifest_value) : bool :=
  match v with
  | MStr s => PyStr.truthy s
  | MDict d => negb (bool_decide (d = ∅))
  | MList l => match l with [] => false | _ => true end
  | MNone => false
  end.

#[global] Instance outcome_ret : MRet outcome := fun A a => Returned a.

#[global] Instance outcome_bind : MBind outcome := fun A B k o =>
  match o with
  | Returned a => k a
  | Raised e => Raised e
  end.

(** The attribute lookup [v.get]: only a dictionary has the method. *)
Definition get_method (v : manifest_value) : outcome (gmap string manifest_value) :=
  match v with
  | MDict d => Returned d
  | MStr _ => Raised "AttributeError: 'str' object has no attribute 'get'"
  | MList _ => Raised "AttributeError: 'list' object has no attribute 'get'"
  | MNone => Raised "AttributeError: 'NoneType' object has no attribute 'get'"
  end.

(** [d.get(key)] on a dictionary: a missing key reads [None]. *)
Definition get_or_none (d : gmap string manifest_value) (key : string) : manifest_value :=
  default MNone (d !! key).

(** The loop of lines 26 to 29 (and 41 to 44) over the items of a list. *)
Fixpoint append_item_names (items : list manifest_value)
    (permissions : list manifest_value) : outcome (list manifest_value) :=
  match items with
  | [] => Returned permissions
  | item :: rest =>
      d ← get_method item;
      let name := get_or_none d "@android:name" in
      append_item_names rest
        (if value_truthy name then append permissions name else permissions)
  end.

(** Lines 21 to 29 (and 36 to 44): the names under one [uses-permission] value. *)
Definition append_names (data : manifest_value) (permissions : list manifest_value)
  : outcome (list manifest_value) :=
  match data with
  | MDict d =>
      let name := get_or_none d "@android:name" in
      Returned (if value_truthy name then append permissions name else permissions)
  | MList items => append_item_names items permissions
  | _ => Returned permissions
  end.

(** [set(permissions)] as the list of its string elements: an element has to
    be hashable, which a dictionary and a list are not. [None] is falsy and so
    never among the elements; it would not compare with a string in [sorted]. *)
Fixpoint hashed_names (permissions : list manifest_value) : outcome (list string) :=
  match permissions with
  | [] => Returned []
  | MStr s :: rest => names ← hashed_names rest; Returned (s :: names)
  | MDict _ :: _ => Raised "TypeError: unhashable type: 'dict'"
  | MList _ :: _ => Raised "TypeError: unhashable type: 'list'"
  | MNone :: _ => Raised "TypeError: '<' not supported between instances of 'str' and 'NoneType'"
  end.

Record apk_info : Type := {
  package_name : manifest_value;
  permissions : list string;
}.

(** [sorted(set(names))] *)
Definition sorted_set (names : list string) : list string :=
  merge_sort str_le (elements (list_to_set names : gset string)).

(** [manifest] is what [APK(apk_path).get_manifest()] gives: a value, or the
    exception raised on the way; nothing in [analyze_apk] catches. *)
Definition analyze_apk (manifest : outcome manifest_value) : outcome apk_info :=
  m ← manifest;
  d ← get_method m;
  let pkg := get_or_none d "@package" in
  perms ←
    match d !! "uses-permission" with
    | Some data => append_names data []
    | None => Returned []
    end;
  perms ←
    match d !! "manifest" with
    | Some (MDict inner) =>
        match inner !! "uses-permission" with
        | Some data => append_names data perms
        | None => Returned perms
        end
    | _ => Returned perms
    end;
  names ← hashed_names perms;
  Returned {| package_name := pkg; permissions := sorted_set names |}.

(** ** test_apk.py *)

(** An argument of a call of [print]: a literal of the script, or a value read
    from the manifest. *)
Inductive print_arg : Type :=
  | Text (s : string)
  | Value (v : manifest_value).

(** The calls of [print] made so far, each with its arguments. *)
Definition stdout : Type := list (list print_arg).

(** The items [for perm in uses_perm] goes through: those of a list, the keys
    of a dictionary (strings, whose order the loop below does not depend on:
    it raises at the first), the characters of a string. *)
Definition iterate (v : manifest_value) : outcome (list manifest_value) :=
  match v with
  | MList items => Returned items
  | MDict d => Returned (map (fun kv => MStr kv.1) (map_to_list d))
  | MStr s => Returned (map (fun c => MStr (String c EmptyString)) (list_ascii_of_string s))
  | MNone => Raised "TypeError: 'NoneType' object is not iterable"
  end.

(** The loop of lines 18 to 20. *)
Fixpoint print_item_names (items : list manifest_value) (out : stdout)
  : outcome unit * stdout :=
  match items with
  | [] => (Returned tt, out)
  | perm :: rest =>
      match get_method perm with
      | Raised e => (Raised e, out)
      | Returned d =>
          let name := default (MStr "UNKNOWN") (d !! "@android:name") in
          print_item_names rest (out ++ [[Text "  -"; Value name]])%list
      end
  end.

(** [manifest.get('uses-permission', [])] *)
Definition uses_permission_or_empty (d : gmap string manifest_value) : manifest_value :=
  default (MList []) (d !! "uses-permission").

(** [manifest] is what [APK(apk_path).get_manifest()] gives. The result is the
    outcome together with what was printed up to it. *)
Definition inspect_apk (manifest : outcome manifest_value) : outcome unit * stdout :=
  match manifest with
  | Raised e => (Raised e, [])
  | Returned m =>
      let out := [[Text "=== APK INFO ==="]] in
      match get_method m with
      | Raised e => (Raised e, out)
      | Returned d =>
          let pkg := get_or_none d "@package" in
          let out := (out ++ [[Text "Package name:"; Value pkg]])%list in
          let uses_perm := uses_permission_or_empty d in
          let out := (out ++ [[Text (String (ascii_of_nat 10) "Permissions:")]])%list in
          if negb (value_truthy uses_perm) then
            (Returned tt, (out ++ [[Text "  (No explicit permissions or none parsed)"]])%list)
          else
            match iterate uses_perm with
            | Raised e => (Raised e, out)
            | Returned items => print_item_names items out
            end
      end
  end.

(** ** app.py: the APK of a bundle *)

(** [os.path.basename(name)]: the text after the last [/]. *)
Definition basename (name : string) : string :=
  PyStr.last_item (PyStr.split "/" name).

(** [zf.getinfo(name)]: of the members with that name the archive's directory
    keeps the last. *)
Fixpoint getinfo (entries : list zip_entry) (name : string) : option zip_entry :=
  match entries with
  | [] => None
  | info :: rest =>
      match getinfo rest name with
      | Some later => Some later
      | None => if String.eqb (filename info) name then Some info else None
      end
  end.

(** The key of line 92: [zf.getinfo(x).file_size]. *)
Definition member_size (entries : list zip_entry) (name : string) : Z :=
  match getinfo entries name with
  | Some info => file_size info
  | None => 0
  end.

(** One step of [sorted(..., reverse=True)]: [x], met after the elements of
    [sorted_so_far], goes behind those whose key is not smaller, so that equal
    keys keep the order they came in. *)
Fixpoint insert_descending (key : string -> Z) (x : string) (sorted_so_far : list string)
  : list string :=
  match sorted_so_far with
  | [] => [x]
  | y :: rest =>
      if key y <? key x then x :: y :: rest
      else y :: insert_descending key x rest
  end.

(** [sorted(names, key=key, reverse=True)] *)
Definition sorted_descending (key : string -> Z) (names : list string) : list string :=
  foldl (fun acc x => insert_descending key x acc) [] names.

(** Lines 86 to 93: the member to take, [None] when no name ends in [.apk]. *)
Definition choose_apk (entries : list zip_entry) : option string :=
  let apks :=
    List.filter (fun n => PyStr.endswith (PyStr.lower n) ".apk") (map filename entries) in
  match apks with
  | [] => None
  | _ =>
      match List.find (fun a => String.eqb (PyStr.lower (basename a)) "base.apk") apks with
      | Some chosen => Some chosen
      | None => head (sorted_descending (member_size entries) apks)
      end
  end.

(** [archive] is what opening the bundle gives, [tmp] what creating the
    temporary file gives: its name, or an exception. The result is the name
    returned together with the data written under it; the bare [except] turns
    every failure into [None]. *)
Definition extract_apk_from_bundle (archive : outcome (list zip_entry))
    (tmp : outcome string) : option (string * string) :=
  match archive with
  | Raised _ => None
  | Returned entries =>
      match choose_apk entries with
      | None => None
      | Some chosen =>
          match getinfo entries chosen with
          | None => None
          | Some info =>
              match read info, tmp with
              | Returned data, Returned path => Some (path, data)
              | _, _ => None
              end
          end
      end
  end.

(** * Vocabulary of the statements *)

(** ** Permission grouping *)

(** The segment of a permission after its last dot. *)
Definition perm_suffix (perm : string) : string :=
  PyStr.last_item (PyStr.split "." perm).

(** [perm] falls in the group named [g] of the table [groups]. *)
Definition in_group (groups : list (string * list string)) (g perm : string) : bool :=
  existsb (fun gs => String.eqb gs.1 g && suffix_matches (perm_suffix perm) gs.2) groups.

(** The keys of the table, in its order. *)
Definition group_names : list string := map fst SENSITIVE_PERMISSION_GROUPS.

(** A permission no group recognizes: its last segment neither equals nor
    ends with any registered suffix. *)
Definition unrecognized (perm : string) : bool :=
  forallb (fun gs => negb (suffix_matches (perm_suffix perm) gs.2))
          SENSITIVE_PERMISSION_GROUPS.

(** ** Claim extraction *)

(** The outcome of line 29 in the environment [env]. *)
Definition load_pipeline (env : environment) : outcome (option classifier) :=
  pipeline env "zero-shot-classification" _ZS_MODEL_NAME (-1).

(** The condition of line 42. *)
Definition too_short_to_classify (policy_text : string) : bool :=
  negb (PyStr.truthy policy_text) || (PyStr.len (PyStr.strip policy_text) <? 20).

(** The classifier object the zero-shot strategy would use from the state
    [g]: the cached one, else the one line 29 loads. *)
Definition classifier_in_use (env : environment) (g : globals) : option classifier :=
  match _ZS_CLASSIFIER g with
  | Some c => Some c
  | None =>
      match load_pipeline env with
      | Returned c => c
      | Raised _ => None
      end
  end.

(** The state after [_init_zero_shot] has run from [g]. *)
Definition after_init (env : environment) (g : globals) : globals :=
  (_init_zero_shot env g).2.

(** Three environments to run the code in: no [transformers] package, a
    classifier that raises when called, and a classifier that answers. *)
Definition env_no_transformers : environment :=
  {| pipeline := fun _ _ _ => Raised "No module named 'transformers'" |}.

Definition env_failing_classifier : environment :=
  {| pipeline := fun _ _ _ => Returned (Some (fun _ _ => Raised "index out of range")) |}.

Definition env_answering : environment :=
  {| pipeline := fun _ _ _ =>
       Returned (Some (fun _ labels =>
         Returned {| res_labels := Some labels;
                     res_scores := Some [0.75; 0.125; 0.5; 0.25; 0; 0.125; 0.25; 1; 0.5]%float |})) |}.

Definition fresh_globals : globals := {| _ZS_CLASSIFIER := None; warnings := [] |}.

Definition sixty_x : string := PyStr.repeat "x" 60.

(** ** The risk scorer *)

(** The condition of line 125. *)
Definition insufficient_policy (policy_text : string) : bool :=
  negb (PyStr.truthy policy_text) || (PyStr.len (PyStr.strip policy_text) <? 50).

(** The answer of the short-circuit, lines 126 to 132. *)
Definition insufficient_answer (permissions : list string) : risk_assessment :=
  {| score := 25;
     level := "HIGH";
     reasons := ["No or insufficient privacy policy text available for analysis."];
     claims := ∅;
     used_groups := group_permissions permissions |}.

(** Lines 134 to 199 as a function of the claims extracted. *)
Definition assessment (claimed : gmap string bool) (permissions : list string)
  : risk_assessment :=
  let used := group_permissions permissions in
  let acc := accumulate_risk claimed used in
  let points := clamp_risk_points acc.1 in
  {| score := Z.max 0 (100 - points);
     level := level_of_score (Z.max 0 (100 - points));
     reasons :=
       match acc.2 with
       | [] => ["No major mismatches or privacy concerns detected based on available information."]
       | rs => rs
       end;
     claims := claimed;
     used_groups := used |}.

(** ** Tracker classification *)

(** What the loop body decides for one domain: the category of the first
    pattern found in it, when that category is a non-empty string. *)
Definition classification (TRACKER_PATTERNS : list (string * string)) (dom : string)
  : option string :=
  match matched_category TRACKER_PATTERNS dom with
  | Some category => if PyStr.truthy category then Some category else None
  | None => None
  end.

(** [sum(d.values())] *)
Definition sum_values (d : gmap string Z) : Z :=
  map_fold (fun _ v n => v + n) 0 d.

(** The number of tracker domains filed under [category]. *)
Definition filed_under (category : string) (tracker_domains : gmap string string) : Z :=
  Z.of_nat (size (filter (fun kv => kv.2 = category) tracker_domains)).

(** What holds of the two dictionaries once the loop has gone through the
    set [X]. *)
Definition loop_invariant (TRACKER_PATTERNS : list (string * string))
    (acc : gmap string string * gmap string Z)
    (X : gset string) : Prop :=
  (∀ dom, acc.1 !! dom
          = if decide (dom ∈ X) then classification TRACKER_PATTERNS dom else None)
  ∧ sum_values acc.2 = Z.of_nat (size acc.1)
  ∧ (∀ category, dict_get acc.2 category 0 = filed_under category acc.1)
  ∧ (∀ category n, acc.2 !! category = Some n → 0 < n).

(** ** URL scanning and domain extraction *)

(** [s] is made of bytes of the URL class only. *)
Fixpoint only_url_bytes (s : string) : bool :=
  match s with
  | EmptyString => true
  | String c s' => url_byte c && only_url_bytes s'
  end.

(** The text of [url] between [//] and the first [/], [?] or [#]. *)
Fixpoint after_slashes (url : string) : string :=
  match url with
  | String "/" (String "/" rest) => rest
  | String _ rest => after_slashes rest
  | EmptyString => EmptyString
  end.

Fixpoint until_path (s : string) : string :=
  match s with
  | EmptyString => EmptyString
  | String c s' =>
      if (Ascii.eqb c "/" || Ascii.eqb c "?" || Ascii.eqb c "#")%bool then EmptyString
      else String c (until_path s')
  end.

(** A stand-in for the standard library on plain ASCII URLs: decoding changes
    nothing, and the network location is cut at the first [/], [?] or [#]. *)
Definition ascii_library : url_library :=
  {| decode_ignore := fun b => b;
     urlparse_netloc := fun url => Returned (until_path (after_slashes url)) |}.

(** A library whose [urlparse] rejects every URL. *)
Definition rejecting_library : url_library :=
  {| decode_ignore := fun b => b;
     urlparse_netloc := fun _ => Raised "ValueError: Invalid IPv6 URL" |}.

(** The entries the loop of [extract_domains_from_apk] reads: no directory, no
    skipped extension, no more than [max_file_size] bytes. *)
Definition scanned (max_file_size : Z) (info : zip_entry) : bool :=
  negb (is_dir info)
  && negb (existsb (PyStr.endswith (PyStr.lower (filename info))) SKIPPED_EXTENSIONS)
  && negb (max_file_size <? file_size info).

(** The summary of an application in which no domain was found. *)
Definition empty_summary : tracker_summary :=
  {| all_domains := [];
     tracker_domains := ∅;
     num_domains := 0;
     num_trackers := 0;
     category_counts := ∅;
     risk_level := "LOW" |}.

(** An archive to run the extraction on: a directory, an image and an
    oversized file that are passed over, a file that cannot be read, and a
    text file with three URLs. *)
Definition sample_archive : outcome (list zip_entry) :=
  Returned
    [ {| is_dir := true; filename := "res/"; file_size := 0; read := Returned "" |};
      {| is_dir := false; filename := "res/Logo.PNG"; file_size := 30;
         read := Returned "http://hidden.example.org/" |};
      {| is_dir := false; filename := "big.bin"; file_size := 2000001;
         read := Returned "http://large.example.org/" |};
      {| is_dir := false; filename := "broken.xml"; file_size := 10;
         read := Raised "BadZipFile: Bad CRC-32" |};
      {| is_dir := false; filename := "classes.dex"; file_size := 90;
         read := Returned "x'http://www.Example.com:8080/a' https://ads.doubleclick.net/q http://" |} ].

(** ** The tracker list *)

(** A row both of whose cells were read: neither [row.get("domain", "")] nor
    [row.get("category", "tracker")] is [None]. *)
Definition row_complete (row : csv_row) : bool :=
  match dict_get row "domain" (Some ""), dict_get row "category" (Some "tracker") with
  | Some _, Some _ => true
  | _, _ => false
  end.

(** The entry a complete row adds to the list, if any: none when the domain
    cell is blank. *)
Definition row_entry (row : csv_row) : option (string * string) :=
  match dict_get row "domain" (Some ""), dict_get row "category" (Some "tracker") with
  | Some d, Some c =>
      let dom := PyStr.lower (PyStr.strip d) in
      if PyStr.truthy dom then Some (dom, PyStr.lower (PyStr.strip c)) else None
  | _, _ => None
  end.

(** ** The claim set *)

(** The nine claim keys, each with the candidate label the zero-shot strategy
    reads it from. *)
Definition claim_labels : list (string * string) :=
  [ ("mentions_location", "collects location data");
    ("mentions_contacts", "collects contact data");
    ("mentions_camera", "collects camera or photos");
    ("mentions_microphone", "collects microphone or audio");
    ("mentions_storage", "collects storage or files");
    ("mentions_phone", "collects phone numbers or call logs");
    ("mentions_ads_tracking", "uses advertising ids or tracking");
    ("mentions_third_parties", "shares data with third parties or partners");
    ("mentions_security", "mentions security or encryption") ].

Definition claim_keys : list string := map fst claim_labels.

(** The claim set [c'] holds every claim that [c] holds. *)
Definition claims_le (c c' : gmap string bool) : Prop :=
  ∀ key, dict_get c key false = true → dict_get c' key false = true.

(** The default reason of line 191. *)
Definition default_reason : string :=
  "No major mismatches or privacy concerns detected based on available information.".

(** A classifier that scores every label one half, and a state in which it
    is cached. *)
Definition half_scores : classifier :=
  fun _ labels =>
    Returned {| res_labels := Some labels;
                res_scores := Some (map (fun _ => 0.5%float) labels) |}.

Definition cached_globals : globals :=
  {| _ZS_CLASSIFIER := Some half_scores; warnings := [] |}.

(** The score that counts for [label] in a classifier result: the last one
    returned under that label, among the pairs [zip] forms. *)
Definition last_score (labs : list string) (scs : list float) (label : string)
  : option float :=
  snd <$> List.find (fun p => String.eqb p.1 label) (reverse (zip labs scs)).

(** ** Comparing assessments *)

(** The number of groups of the table some permission of the list falls in. *)
Definition groups_hit (permissions : list string) : Z :=
  foldr (fun g n =>
           Z.b2z (existsb (in_group SENSITIVE_PERMISSION_GROUPS g) permissions) + n)
        0 group_names.

(** The group mapping [u'] marks every group that [u] marks. *)
Definition used_le (u u' : gmap string bool) : Prop :=
  ∀ group, dict_get u group false = true → dict_get u' group false = true.

(** Points and reasons go together: each penalty is between 5 and 20 points
    and comes with one reason, none of which is the default reason. *)
Definition reasons_inv (acc : Z * list string) : Prop :=
  5 * Z.of_nat (length acc.2) <= acc.1 <= 20 * Z.of_nat (length acc.2)
  ∧ Forall (fun r => r ≠ default_reason) acc.2.

(** ** The manifest *)

Definition is_dict (v : manifest_value) : bool :=
  match v with MDict _ => true | _ => false end.

(** The [@android:name] of an item, [None] for an item without one. *)
Definition item_name (item : manifest_value) : manifest_value :=
  match item with
  | MDict d => get_or_none d "@android:name"
  | _ => MNone
  end.

(** Every item of a list under [uses-permission] is a dictionary. *)
Definition items_are_dicts (data : manifest_value) : bool :=
  match data with
  | MList items => forallb is_dict items
  | _ => true
  end.

(** The truthy names under one [uses-permission] value: of the dictionary, or
    of the items of the list; nothing under a string or [None]. *)
Definition names_under (data : manifest_value) : list manifest_value :=
  match data with
  | MDict _ => List.filter value_truthy [item_name data]
  | MList items => List.filter value_truthy (map item_name items)
  | _ => []
  end.

(** The two places [analyze_apk] reads: [uses-permission] at the top, and
    under [manifest] when that is a dictionary. *)
Definition top_uses_permission (d : gmap string manifest_value) : manifest_value :=
  get_or_none d "uses-permission".

Definition nested_uses_permission (d : gmap string manifest_value) : manifest_value :=
  match d !! "manifest" with
  | Some (MDict inner) => get_or_none inner "uses-permission"
  | _ => MNone
  end.

Definition declared_names (d : gmap string manifest_value) : list manifest_value :=
  (names_under (top_uses_permission d) ++ names_under (nested_uses_permission d))%list.

(** A manifest with two permissions at the top, one of them again under
    [manifest], and an item without a name. *)
Definition sample_manifest : manifest_value :=
  MDict (<["@package" := MStr "org.example.app"]>
         (<["uses-permission" :=
              MList [ MDict {["@android:name" := MStr "android.permission.RECORD_AUDIO"]};
                      MDict {["@android:name" := MStr "android.permission.CAMERA"]};
                      MDict ∅ ]]>
         (<["manifest" :=
              MDict {["uses-permission" :=
                        MDict {["@android:name" := MStr "android.permission.CAMERA"]}]}]>
          ∅))).

(** ** The APK of a bundle *)

(** The member names ending in [.apk], in the order of the archive. *)
Definition apk_names (entries : list zip_entry) : list string :=
  List.filter (fun n => PyStr.endswith (PyStr.lower n) ".apk") (map filename entries).

(** The name is [base.apk] in some directory, in any case. *)
Definition is_base_apk (name : string) : bool :=
  String.eqb (PyStr.lower (basename name)) "base.apk".

(** A bundle with a split APK before the base one, and one without a base. *)
Definition member (name : string) (size : Z) : zip_entry :=
  {| is_dir := false; filename := name; file_size := size; read := Returned name |}.

Definition sample_bundle : list zip_entry :=
  [ member "icon.png" 500; member "split_config.en.apk" 900;
    member "apks/Base.APK" 100; member "base.apk" 800 ].

Definition sample_bundle_without_base : list zip_entry :=
  [ member "icon.png" 500; member "a.apk" 300; member "b.apk" 900; member "c.APK" 900 ].

(** ** Inspecting a manifest *)

(** The three calls of [print] before the permissions. *)
Definition header (d : gmap string manifest_value) : stdout :=
  [ [Text "=== APK INFO ==="];
    [Text "Package name:"; Value (get_or_none d "@package")];
    [Text (String (ascii_of_nat 10) "Permissions:")] ].

(** The line printed for an item. *)
Definition item_line (item : manifest_value) : list print_arg :=
  [ Text "  -";
    Value (match item with
           | MDict d => default (MStr "UNKNOWN") (d !! "@android:name")
           | _ => MNone
           end) ].

(** A manifest with a single permission: the parser gives the one
    [uses-permission] element as a dictionary, not as a list of one. *)
Definition single_permission_manifest : gmap string manifest_value :=
  <["@package" := MStr "org.example.app"]>
  (<["uses-permission" := MDict {["@android:name" := MStr "android.permission.CAMERA"]}]> ∅).

(** * Properties *)

(** ** The string operations on literal inputs *)

Example strip_both_ends : PyStr.strip "  a policy  " = "a policy".
Proof. reflexivity. Qed.

Example isspace_table :
  PyStr.isspace "009"%char = true
  ∧ PyStr.isspace "160"%char = true
  ∧ PyStr.isspace "x"%char = false.
Proof. by repeat split. Qed.

Example strip_all_blank : PyStr.strip "   " = "" ∧ PyStr.len (PyStr.strip "   ") = 0.
Proof. by split. Qed.

Example lower_mixed : PyStr.lower "GPS & Geo-Location" = "gps & geo-location".
Proof. reflexivity. Qed.

Example split_dots :
  PyStr.split "." "android.permission.CAMERA" = ["android"; "permission"; "CAMERA"]
  ∧ PyStr.split "." "CAMERA" = ["CAMERA"]
  ∧ PyStr.split "." "a.b." = ["a"; "b"; ""]
  ∧ PyStr.split "." "" = [""].
Proof. by repeat split. Qed.

Example perm_suffix_last_segment :
  perm_suffix "android.permission.CAMERA" = "CAMERA"
  ∧ perm_suffix "CAMERA" = "CAMERA"
  ∧ perm_suffix "trailing." = "".
Proof. by repeat split. Qed.

Example endswith_tail :
  PyStr.endswith "FOREGROUND_SERVICE_CAMERA" "CAMERA" = true
  ∧ PyStr.endswith "CAMERA" "FOREGROUND_SERVICE_CAMERA" = false
  ∧ PyStr.endswith "CAMERA" "" = true.
Proof. by repeat split. Qed.

Example contains_anywhere :
  PyStr.contains "ads" "we show ads" = true
  ∧ PyStr.contains "ads" "downloads are fast" = true
  ∧ PyStr.contains "gps" "g p s" = false.
Proof. by repeat split. Qed.

(** ** Permission grouping *)

Section GroupPermissions.

Lemma mark_loop_lookup (groups : list (string * list string)) suffix
    (used : gmap string bool) (g : string) :
  foldl (fun used gs =>
           if suffix_matches suffix gs.2 then <[gs.1 := true]> used else used)
        used groups !! g
  = if existsb (fun gs => String.eqb gs.1 g && suffix_matches suffix gs.2) groups
    then Some true else used !! g.
Proof.
  revert used. induction groups as [|[k sufs] groups IH]; intros used; simpl; [done|].
  rewrite IH. destruct (existsb _ groups); [by rewrite orb_true_r|].
  rewrite orb_false_r. destruct (suffix_matches suffix sufs) eqn:Hm.
  - rewrite andb_true_r. destruct (String.eqb_spec k g) as [->|Hne].
    + by rewrite lookup_insert_eq.
    + by rewrite lookup_insert_ne.
  - by rewrite andb_false_r.
Qed.

Lemma mark_groups_lookup used perm g :
  mark_groups used perm !! g
  = if in_group SENSITIVE_PERMISSION_GROUPS g perm then Some true else used !! g.
Proof. apply mark_loop_lookup. Qed.

Lemma foldl_mark_groups_lookup perms used g :
  foldl mark_groups used perms !! g
  = if existsb (in_group SENSITIVE_PERMISSION_GROUPS g) perms
    then Some true else used !! g.
Proof.
  revert used. induction perms as [|p perms IH]; intros used; cbn [foldl existsb]; [done|].
  rewrite IH, mark_groups_lookup.
  destruct (in_group _ g p); cbn [orb]; [|done].
  by destruct (existsb _ perms).
Qed.

Lemma dict_of_lookup_fresh {V} (pairs : list (string * V)) (d : gmap string V) k :
  k ∉ map fst pairs →
  foldl (fun d kv => <[kv.1 := kv.2]> d) d pairs !! k = d !! k.
Proof.
  revert d. induction pairs as [|[k' v] pairs IH]; intros d Hk; simpl; [done|].
  simpl in Hk. apply not_elem_of_cons in Hk as [Hne Hk].
  rewrite IH by done. by rewrite lookup_insert_ne.
Qed.

(** What [group_permissions] answers for a key: a group of the table is
    [True] exactly when some permission falls in it, any other key is absent. *)
Lemma group_permissions_lookup perms g :
  group_permissions perms !! g
  = if bool_decide (g ∈ group_names)
    then Some (existsb (in_group SENSITIVE_PERMISSION_GROUPS g) perms)
    else None.
Proof.
  unfold group_permissions. rewrite foldl_mark_groups_lookup.
  case_bool_decide as Hg.
  - destruct (existsb _ perms); [done|].
    unfold group_names in Hg. simpl in Hg.
    repeat (apply elem_of_cons in Hg as [->|Hg]; [by vm_compute|]).
    by apply elem_of_nil in Hg.
  - assert (existsb (in_group SENSITIVE_PERMISSION_GROUPS g) perms = false) as ->.
    { apply not_true_is_false. intros Hex.
      apply existsb_exists in Hex as (p & _ & Hp).
      apply existsb_exists in Hp as ([k sufs] & Hin & Hk).
      apply andb_true_iff in Hk as [Hk _]. apply String.eqb_eq in Hk. simpl in Hk. subst k.
      apply Hg. unfold group_names. apply list_elem_of_In, in_map_iff.
      by exists (g, sufs). }
    unfold dict_of. rewrite dict_of_lookup_fresh; [done|].
    by rewrite map_map.
Qed.

End GroupPermissions.

Lemma existsb_Permutation {A} (f : A → bool) (l l' : list A) :
  l ≡ₚ l' → existsb f l = existsb f l'.
Proof.
  induction 1 as [|x l l' _ IH|x y l|l l' l'' _ IH1 _ IH2]; simpl.
  - done.
  - by rewrite IH.
  - by destruct (f x), (f y).
  - congruence.
Qed.


Lemma unrecognized_in_group perm g :
  unrecognized perm = true → in_group SENSITIVE_PERMISSION_GROUPS g perm = false.
Proof.
  unfold unrecognized, in_group. intros Hun.
  apply not_true_is_false. intros Hex.
  apply existsb_exists in Hex as (gs & Hin & Hgs).
  apply andb_true_iff in Hgs as [_ Hm].
  rewrite forallb_forall in Hun. specialize (Hun gs Hin).
  rewrite Hm in Hun. discriminate.
Qed.

(** C7. [group_permissions] does not depend on the order of the permission
    list: a permutation of the input yields the same mapping; running it on
    the list repeated yields the same mapping again; its answer is always a
    mapping over the seven groups, whatever the permissions are (nothing is
    rejected); and a permission that no group recognizes marks no group and
    leaves the mapping of any list it is put in unchanged. *)
Theorem group_permissions_order_independent (perms perms' : list string) (p : string) :
  (perms ≡ₚ perms' → group_permissions perms' = group_permissions perms)
  ∧ group_permissions (perms ++ perms) = group_permissions perms
  ∧ dom (group_permissions perms) = list_to_set group_names
  ∧ (unrecognized p = true →
       (∀ g, g ∈ group_names → group_permissions [p] !! g = Some false)
       ∧ ∀ pre post, group_permissions (pre ++ p :: post) = group_permissions (pre ++ post)).
Proof.
  split; [|split; [|split]].
  - intros Hperm. apply map_eq. intros g. rewrite !group_permissions_lookup.
    by rewrite (existsb_Permutation _ _ _ Hperm).
  - apply map_eq. intros g. rewrite !group_permissions_lookup.
    rewrite existsb_app. by destruct (existsb _ perms).
  - apply set_eq. intros g. rewrite elem_of_dom, group_permissions_lookup.
    rewrite elem_of_list_to_set. case_bool_decide; split; intros H'; done.
  - intros Hun. split.
    + intros g Hg. rewrite group_permissions_lookup.
      rewrite bool_decide_eq_true_2 by done. cbn [existsb].
      by rewrite unrecognized_in_group.
    + intros pre post. apply map_eq. intros g. rewrite !group_permissions_lookup.
      rewrite !existsb_app. cbn [existsb]. by rewrite unrecognized_in_group.
Qed.

(** The same on two concrete lists: a swap, and an [INTERNET] permission added. *)
Lemma group_permissions_order_independent_witness :
  group_permissions ["android.permission.RECORD_AUDIO"; "android.permission.CAMERA"]
  = group_permissions ["android.permission.CAMERA"; "android.permission.RECORD_AUDIO"]
  ∧ group_permissions ["android.permission.CAMERA"; "android.permission.INTERNET"]
    = group_permissions ["android.permission.CAMERA"].
Proof.
  destruct (group_permissions_order_independent
              ["android.permission.CAMERA"; "android.permission.RECORD_AUDIO"]
              ["android.permission.RECORD_AUDIO"; "android.permission.CAMERA"]
              "android.permission.INTERNET") as (Hperm & _ & _ & Hun).
  split.
  - apply Hperm. apply perm_swap.
  - destruct (Hun eq_refl) as [_ Hdrop].
    apply (Hdrop ["android.permission.CAMERA"] []).
Defined.

(** The seven entries of the mapping for a camera and a microphone permission. *)
Example group_permissions_camera_audio :
  map_to_list (group_permissions ["android.permission.CAMERA"; "x.RECORD_AUDIO"])
  ≡ₚ [("location", false); ("contacts", false); ("camera", true); ("microphone", true);
      ("storage_media", false); ("phone", false); ("ads_tracking", false)].
Proof. vm_compute. solve_Permutation. Qed.

(** ** Claim extraction *)

Section ExtractPolicyClaims.

Variable env : environment.

Lemma init_zero_shot_run (g : globals) :
  _init_zero_shot env g =
  match _ZS_CLASSIFIER g with
  | Some _ => (Returned true, g)
  | None =>
      match load_pipeline env with
      | Returned c =>
          (Returned true, {| _ZS_CLASSIFIER := c; warnings := warnings g |})
      | Raised e =>
          (Returned false,
           {| _ZS_CLASSIFIER := None;
              warnings := append (warnings g) ("Zero-shot init failed: " ++ e) |})
      end
  end.
Proof.
  unfold _init_zero_shot, load_pipeline, mbind, M_bind, read_classifier.
  destruct (_ZS_CLASSIFIER g) as [c|] eqn:Hc.
  - reflexivity.
  - unfold try_except, call, write_classifier, logging_warning, mret, M_ret.
    destruct (pipeline env _ _ _) as [c|e]; reflexivity.
Qed.

Lemma keyword_text_or_empty policy_text :
  _keyword_extract_claims (if PyStr.truthy policy_text then policy_text else "")
  = _keyword_extract_claims policy_text.
Proof. by destruct policy_text. Qed.

Lemma extract_policy_claims_short policy_text g :
  too_short_to_classify policy_text = true →
  extract_policy_claims env policy_text g
  = (Returned (_keyword_extract_claims policy_text), g).
Proof.
  intros Hshort. unfold extract_policy_claims.
  fold (too_short_to_classify policy_text). rewrite Hshort.
  by rewrite keyword_text_or_empty.
Qed.

Lemma extract_policy_claims_no_classifier policy_text g :
  too_short_to_classify policy_text = false →
  classifier_in_use env g = None →
  extract_policy_claims env policy_text g
  = (Returned (_keyword_extract_claims policy_text), after_init env g).
Proof.
  intros Hlong Hnone. unfold extract_policy_claims, after_init.
  fold (too_short_to_classify policy_text). rewrite Hlong.
  unfold mbind, M_bind. rewrite init_zero_shot_run.
  unfold classifier_in_use in Hnone.
  destruct (_ZS_CLASSIFIER g) as [c|] eqn:Hc; [done|].
  destruct (load_pipeline env) as [[c|]|e]; done.
Qed.

Lemma extract_policy_claims_classifier policy_text g c :
  too_short_to_classify policy_text = false →
  classifier_in_use env g = Some c →
  extract_policy_claims env policy_text g
  = match zero_shot_attempt c policy_text (after_init env g) with
    | (Returned cl, g') => (Returned cl, g')
    | (Raised e, g') =>
        (Returned (_keyword_extract_claims policy_text),
         {| _ZS_CLASSIFIER := _ZS_CLASSIFIER g';
            warnings := append (warnings g') ("Zero-shot classification error: " ++ e) |})
    end.
Proof.
  intros Hlong Hsome. unfold extract_policy_claims, after_init.
  fold (too_short_to_classify policy_text). rewrite Hlong.
  unfold mbind at 1 2. unfold M_bind at 1 2. rewrite init_zero_shot_run.
  unfold classifier_in_use in Hsome.
  destruct (_ZS_CLASSIFIER g) as [c0|] eqn:Hc.
  - simplify_eq. unfold read_classifier; simpl. rewrite Hc. reflexivity.
  - destruct (load_pipeline env) as [[c0|]|e]; try done. simplify_eq.
    unfold read_classifier; simpl. reflexivity.
Qed.

(** The zero-shot attempt touches neither the global nor the log. *)
Lemma zero_shot_attempt_run c policy_text g :
  zero_shot_attempt c policy_text g =
  (match c policy_text candidate_labels with
   | Returned {| res_labels := Some labs; res_scores := Some scs |} =>
       Returned (zero_shot_claims labs scs)
   | Returned {| res_labels := None |} => Raised ("KeyError: " ++ "labels")
   | Returned {| res_labels := Some _; res_scores := None |} =>
       Raised ("KeyError: " ++ "scores")
   | Raised e => Raised e
   end, g).
Proof.
  unfold zero_shot_attempt, mbind, M_bind, call.
  destruct (c policy_text candidate_labels) as [[[labs|] [scs|]]|e]; reflexivity.
Qed.

End ExtractPolicyClaims.

Lemma too_short_to_classify_iff policy_text :
  too_short_to_classify policy_text = true ↔ PyStr.len (PyStr.strip policy_text) < 20.
Proof.
  unfold too_short_to_classify. rewrite orb_true_iff, Z.ltb_lt. split; [|by right].
  intros [Hempty|Hlt]; [|done]. by destruct policy_text.
Qed.

(** Every call of [extract_policy_claims] returns one of two claim sets, whole:
    the keyword one, or the one the classifier in use produced. *)
Lemma extract_policy_claims_cases env policy_text g :
  ∃ cl g', extract_policy_claims env policy_text g = (Returned cl, g')
    ∧ ((cl = _keyword_extract_claims policy_text
        ∧ (too_short_to_classify policy_text = true ∧ g' = g
           ∨ too_short_to_classify policy_text = false
             ∧ classifier_in_use env g = None ∧ g' = after_init env g
           ∨ too_short_to_classify policy_text = false
             ∧ ∃ c e, classifier_in_use env g = Some c
               ∧ (zero_shot_attempt c policy_text (after_init env g)).1 = Raised e))
       ∨ (too_short_to_classify policy_text = false
          ∧ ∃ c, classifier_in_use env g = Some c
            ∧ zero_shot_attempt c policy_text (after_init env g)
              = (Returned cl, g'))).
Proof.
  destruct (too_short_to_classify policy_text) eqn:Hshort.
  { eexists _, _. split; [by apply extract_policy_claims_short|]. left. eauto. }
  destruct (classifier_in_use env g) as [c|] eqn:Hc.
  2:{ eexists _, _. split; [by apply extract_policy_claims_no_classifier|].
      left. split; [done|]. right. left. eauto. }
  rewrite (extract_policy_claims_classifier env policy_text g c Hshort Hc).
  destruct (zero_shot_attempt c policy_text (after_init env g)) as [[cl|e] g'] eqn:Hrun.
  - eexists _, _. split; [done|]. right. split; [done|]. eauto.
  - eexists _, _. split; [done|]. left. split; [done|]. right. right.
    split; [done|]. exists c, e. by rewrite Hrun.
Qed.

(** C8. Whatever the text, the environment and the cached classifier, a call
    of [extract_policy_claims] returns a claim set and never raises; the set
    is either the keyword strategy's or the one the classifier produced,
    never a mix; text whose trimmed length is below 20 goes through the
    keyword strategy and touches neither the global nor the log; when the
    pipeline fails to load, or the classifier in use raises at call time (or
    its result lacks a key), the call returns the keyword strategy's claims,
    and an initialization failure is recorded in the log. *)
Theorem extract_policy_claims_falls_back (env : environment) (policy_text : string)
    (g : globals) :
  ∃ cl g', extract_policy_claims env policy_text g = (Returned cl, g')
    ∧ (cl = _keyword_extract_claims policy_text
       ∨ ∃ c, PyStr.len (PyStr.strip policy_text) >= 20
           ∧ classifier_in_use env g = Some c
           ∧ (zero_shot_attempt c policy_text (after_init env g)).1 = Returned cl)
    ∧ (PyStr.len (PyStr.strip policy_text) < 20 →
         cl = _keyword_extract_claims policy_text ∧ g' = g)
    ∧ (∀ e, _ZS_CLASSIFIER g = None → load_pipeline env = Raised e →
         cl = _keyword_extract_claims policy_text
         ∧ (PyStr.len (PyStr.strip policy_text) >= 20 →
              g' = {| _ZS_CLASSIFIER := None;
                      warnings := append (warnings g) ("Zero-shot init failed: " ++ e) |}))
    ∧ (∀ c e, classifier_in_use env g = Some c →
         (zero_shot_attempt c policy_text (after_init env g)).1 = Raised e →
         cl = _keyword_extract_claims policy_text).
Proof.
  destruct (extract_policy_claims_cases env policy_text g) as (cl & g' & Hrun & Hcases).
  exists cl, g'. split; [done|].
  assert (too_short_to_classify policy_text = false
          ↔ PyStr.len (PyStr.strip policy_text) >= 20) as Hlong.
  { rewrite <- not_true_iff_false, too_short_to_classify_iff. lia. }
  split; [|split; [|split]].
  - destruct Hcases as [[-> _]|(Hl & c & Hc & Hz)]; [by left|].
    right. exists c. rewrite Hz. by rewrite <- Hlong.
  - intros Hlt. apply too_short_to_classify_iff in Hlt.
    destruct Hcases as [[-> [[_ ->]|[[Hl _]|[Hl _]]]]|[Hl _]]; first [done|congruence].
  - intros e Hnone Hload.
    assert (classifier_in_use env g = None) as Hin.
    { unfold classifier_in_use. by rewrite Hnone, Hload. }
    destruct Hcases as [[-> [[Hs ->]|[(Hl & _ & ->)|(Hl & c & e' & Hc & _)]]]|(Hl & c & Hc & _)];
      try congruence.
    + split; [done|]. intros Hge. apply Hlong in Hge. congruence.
    + split; [done|]. intros _. unfold after_init.
      rewrite init_zero_shot_run, Hnone. fold (load_pipeline env). by rewrite Hload.
  - intros c e Hc Hz.
    destruct Hcases as [[-> _]|(Hl & c' & Hc' & Hz')]; [done|].
    simplify_eq. rewrite Hz' in Hz. discriminate.
Qed.


(** The three fallbacks run: a missing package, a classifier that raises, and
    a text of nine characters. *)
Lemma extract_policy_claims_falls_back_witness :
  (extract_policy_claims env_no_transformers sixty_x fresh_globals).1
  = Returned (_keyword_extract_claims sixty_x)
  ∧ (extract_policy_claims env_failing_classifier sixty_x fresh_globals).1
    = Returned (_keyword_extract_claims sixty_x)
  ∧ extract_policy_claims env_answering "too short" fresh_globals
    = (Returned (_keyword_extract_claims "too short"), fresh_globals).
Proof.
  split; [|split].
  - destruct (extract_policy_claims_falls_back env_no_transformers sixty_x fresh_globals)
      as (cl & g' & -> & _ & _ & Hinit & _).
    simpl. f_equal. by apply (Hinit "No module named 'transformers'").
  - destruct (extract_policy_claims_falls_back env_failing_classifier sixty_x fresh_globals)
      as (cl & g' & -> & _ & _ & _ & Hcall).
    simpl. f_equal. by eapply (Hcall _ "index out of range").
  - destruct (extract_policy_claims_falls_back env_answering "too short" fresh_globals)
      as (cl & g' & -> & _ & Hshort & _).
    by destruct Hshort as [-> ->].
Defined.

(** With a classifier that answers, the claims are the classifier's: here the
    text names no keyword, and four labels reach the threshold. *)
Example extract_policy_claims_zero_shot :
  ∃ cl g', extract_policy_claims env_answering sixty_x fresh_globals = (Returned cl, g')
    ∧ map_to_list cl ≡ₚ
        [("mentions_location", true); ("mentions_contacts", false);
         ("mentions_camera", true); ("mentions_microphone", false);
         ("mentions_storage", false); ("mentions_phone", false);
         ("mentions_ads_tracking", false); ("mentions_third_parties", true);
         ("mentions_security", true)]
    ∧ cl ≠ _keyword_extract_claims sixty_x
    ∧ warnings g' = [].
Proof.
  eexists _, _. split; [reflexivity|]. split; [|split].
  - vm_compute. solve_Permutation.
  - intros Heq. apply (f_equal (fun m => m !! "mentions_security")) in Heq.
    vm_compute in Heq. discriminate.
  - reflexivity.
Qed.

(** The keyword strategy on literal text. *)
Example keyword_geolocation :
  _keyword_extract_claims "We use your Geolocation." !! "mentions_location" = Some true
  ∧ _keyword_extract_claims "We use your Geolocation." !! "mentions_camera" = Some false.
Proof. split; vm_compute; reflexivity. Qed.

(** ** The risk scorer *)

Section RiskScorer.

Lemma insufficient_policy_iff policy_text :
  insufficient_policy policy_text = true
  ↔ policy_text = "" ∨ PyStr.len (PyStr.strip policy_text) < 50.
Proof.
  unfold insufficient_policy. rewrite orb_true_iff, Z.ltb_lt.
  split; (intros [H|H]; [left|by right]); by destruct policy_text.
Qed.

Lemma sufficient_policy_iff policy_text :
  insufficient_policy policy_text = false ↔ 50 <= PyStr.len (PyStr.strip policy_text).
Proof.
  rewrite <- not_true_iff_false, insufficient_policy_iff. split.
  - intros Hn. destruct (Z.lt_ge_cases (PyStr.len (PyStr.strip policy_text)) 50); tauto.
  - intros Hge [->|Hlt]; [by vm_compute in Hge|lia].
Qed.

Lemma check_bounds used claimed acc group_key claim_key label weight lo hi :
  0 <= weight →
  lo <= acc.1 <= hi →
  lo <= (check used claimed acc group_key claim_key label weight).1 <= hi + weight.
Proof.
  intros Hw Hacc. unfold check. destruct acc as [rp rs].
  destruct (_ && _); simpl in *; lia.
Qed.

Lemma penalty_bounds (b : bool) (acc : Z * list string) weight (rs : list string) lo hi :
  0 <= weight →
  lo <= acc.1 <= hi →
  lo <= (if b then (acc.1 + weight, rs) else acc).1 <= hi + weight.
Proof. intros Hw Hacc. destruct b; simpl; lia. Qed.

(** The penalties add up to at most 99, and to no less than 0. *)
Lemma accumulate_risk_bounds claimed used :
  0 <= (accumulate_risk claimed used).1 <= 99.
Proof.
  unfold accumulate_risk. cbv zeta.
  change 99 with (20 + 10 + 10 + 10 + 10 + 7 + 7 + 7 + 5 + 8 + 5).
  do 3 (apply penalty_bounds; [lia|]).
  do 7 (apply check_bounds; [lia|]).
  repeat case_match; simpl; lia.
Qed.

Lemma clamp_risk_points_bounds risk_points :
  0 <= risk_points → 0 <= clamp_risk_points risk_points <= 90.
Proof. unfold clamp_risk_points. case_match; lia. Qed.

(** The two ways a call of [compute_privacy_risk] goes. *)
Lemma compute_privacy_risk_cases env permissions policy_text g :
  ∃ r g', compute_privacy_risk env permissions policy_text g = (Returned r, g')
    ∧ (insufficient_policy policy_text = true
       ∧ r = insufficient_answer permissions ∧ g' = g
       ∨ insufficient_policy policy_text = false
         ∧ extract_policy_claims env policy_text g = (Returned (claims r), g')
         ∧ used_groups r = group_permissions permissions
         ∧ score r
           = Z.max 0 (100 - clamp_risk_points
                              (accumulate_risk (claims r) (used_groups r)).1)
         ∧ level r = level_of_score (score r)
         ∧ reasons r
           = match (accumulate_risk (claims r) (used_groups r)).2 with
             | [] => ["No major mismatches or privacy concerns detected based on available information."]
             | rs => rs
             end).
Proof.
  unfold compute_privacy_risk. fold (insufficient_policy policy_text).
  destruct (insufficient_policy policy_text) eqn:Hins.
  { eexists _, _. split; [reflexivity|]. by left. }
  destruct (extract_policy_claims_cases env policy_text g) as (cl & g' & Hrun & _).
  unfold mbind, M_bind. rewrite Hrun.
  destruct (accumulate_risk cl (group_permissions permissions)) as [rp rs] eqn:Hacc.
  eexists _, _. split; [reflexivity|]. right. simpl. rewrite Hacc. simpl.
  repeat split; try done. by destruct rs.
Qed.


Lemma compute_privacy_risk_sufficient env permissions policy_text g cl g' :
  insufficient_policy policy_text = false →
  extract_policy_claims env policy_text g = (Returned cl, g') →
  compute_privacy_risk env permissions policy_text g
  = (Returned (assessment cl permissions), g').
Proof.
  intros Hsuff Hext. unfold compute_privacy_risk, assessment.
  fold (insufficient_policy policy_text). rewrite Hsuff.
  unfold mbind, M_bind. rewrite Hext.
  by destruct (accumulate_risk cl (group_permissions permissions)) as [rp [|r1 rs]].
Qed.

(** Without the [transformers] package the scorer runs on the keyword claims. *)
Lemma compute_privacy_risk_no_transformers permissions policy_text :
  insufficient_policy policy_text = false →
  compute_privacy_risk env_no_transformers permissions policy_text fresh_globals
  = (Returned (assessment (_keyword_extract_claims policy_text) permissions),
     after_init env_no_transformers fresh_globals).
Proof.
  intros Hsuff. apply compute_privacy_risk_sufficient; [done|].
  apply extract_policy_claims_no_classifier; [|done].
  apply not_true_iff_false. rewrite too_short_to_classify_iff.
  apply sufficient_policy_iff in Hsuff. lia.
Qed.

End RiskScorer.

(** C1. When the policy text is empty, or its trimmed length is below 50,
    [compute_privacy_risk] returns at once score 25, level HIGH, the one fixed
    reason, no claims, and the grouping of the permissions, whatever the
    permissions, the environment and the cached classifier are; it neither
    loads a classifier nor logs. *)
Theorem compute_privacy_risk_insufficient_policy (env : environment)
    (permissions : list string) (policy_text : string) (g : globals) :
  policy_text = "" ∨ PyStr.len (PyStr.strip policy_text) < 50 →
  compute_privacy_risk env permissions policy_text g
  = (Returned {| score := 25;
                 level := "HIGH";
                 reasons := ["No or insufficient privacy policy text available for analysis."];
                 claims := ∅;
                 used_groups := group_permissions permissions |}, g).
Proof.
  intros Hins. apply insufficient_policy_iff in Hins.
  destruct (compute_privacy_risk_cases env permissions policy_text g)
    as (r & g' & -> & [(_ & -> & ->)|(Hsuff & _)]).
  - reflexivity.
  - congruence.
Qed.

(** The short-circuit on the empty text and on a text of 40 characters between
    blanks. *)
Lemma compute_privacy_risk_insufficient_policy_witness :
  compute_privacy_risk env_answering ["android.permission.CAMERA"] "" fresh_globals
  = (Returned {| score := 25;
                 level := "HIGH";
                 reasons := ["No or insufficient privacy policy text available for analysis."];
                 claims := ∅;
                 used_groups := group_permissions ["android.permission.CAMERA"] |},
     fresh_globals)
  ∧ (compute_privacy_risk env_answering []
       "   We respect your privacy and your camera.   " fresh_globals).1
    = Returned {| score := 25;
                  level := "HIGH";
                  reasons := ["No or insufficient privacy policy text available for analysis."];
                  claims := ∅;
                  used_groups := group_permissions [] |}.
Proof.
  split.
  - apply compute_privacy_risk_insufficient_policy. by left.
  - rewrite compute_privacy_risk_insufficient_policy; [reflexivity|].
    right. by vm_compute.
Defined.

(** C2. For every input, the level [compute_privacy_risk] returns is read off
    the score it returns: LOW from 75 up, MEDIUM from 50 to 74, HIGH below 50;
    so 75 gives LOW, 74 and 50 give MEDIUM, 49 gives HIGH. *)
Theorem level_is_function_of_score (env : environment) (permissions : list string)
    (policy_text : string) (g : globals) :
  (∃ r g', compute_privacy_risk env permissions policy_text g = (Returned r, g')
     ∧ level r = (if 75 <=? score r then "LOW"
                  else if 50 <=? score r then "MEDIUM"
                  else "HIGH"))
  ∧ level_of_score 75 = "LOW"
  ∧ level_of_score 74 = "MEDIUM"
  ∧ level_of_score 50 = "MEDIUM"
  ∧ level_of_score 49 = "HIGH".
Proof.
  split; [|done].
  destruct (compute_privacy_risk_cases env permissions policy_text g)
    as (r & g' & Hrun & [(_ & -> & ->)|(_ & _ & _ & _ & Hlevel & _)]);
    eexists _, _; (split; [exact Hrun|]).
  - reflexivity.
  - exact Hlevel.
Qed.

(** C3. For every input, the clamped [risk_points] lies between 0 and 90,
    whatever the claims and the groups are, and the score returned lies
    between 0 and 100, with 100 minus the score at most 90. *)
Theorem risk_points_and_score_bounds (env : environment) (permissions : list string)
    (policy_text : string) (g : globals) :
  (∀ claimed used : gmap string bool,
     0 <= clamp_risk_points (accumulate_risk claimed used).1 <= 90)
  ∧ ∃ r g', compute_privacy_risk env permissions policy_text g = (Returned r, g')
      ∧ 0 <= score r <= 100
      ∧ 100 - score r <= 90.
Proof.
  assert (∀ claimed used : gmap string bool,
            0 <= clamp_risk_points (accumulate_risk claimed used).1 <= 90) as Hclamp.
  { intros claimed used. apply clamp_risk_points_bounds, accumulate_risk_bounds. }
  split; [exact Hclamp|].
  destruct (compute_privacy_risk_cases env permissions policy_text g)
    as (r & g' & Hrun & [(_ & -> & ->)|(_ & _ & _ & Hscore & _)]);
    eexists _, _; (split; [exact Hrun|]).
  - simpl. lia.
  - rewrite Hscore. specialize (Hclamp (claims r) (used_groups r)). lia.
Qed.

(** C10. When the trimmed policy text has 50 characters or more, the score is
    100 minus the clamped [risk_points] and lies between 10 and 100, so the
    floor [max(0, ...)] changes nothing; when it has fewer, the score is 25.
    Every score returned is therefore 25 or within 10 to 100. *)
Theorem score_at_least_ten (env : environment) (permissions : list string)
    (policy_text : string) (g : globals) :
  ∃ r g', compute_privacy_risk env permissions policy_text g = (Returned r, g')
    ∧ (score r = 25 ∨ 10 <= score r <= 100)
    ∧ (PyStr.len (PyStr.strip policy_text) < 50 → score r = 25)
    ∧ (50 <= PyStr.len (PyStr.strip policy_text) →
         10 <= score r <= 100
         ∧ score r = 100 - clamp_risk_points (accumulate_risk (claims r) (used_groups r)).1
         ∧ Z.max 0 (100 - clamp_risk_points (accumulate_risk (claims r) (used_groups r)).1)
           = 100 - clamp_risk_points (accumulate_risk (claims r) (used_groups r)).1).
Proof.
  destruct (compute_privacy_risk_cases env permissions policy_text g)
    as (r & g' & Hrun & [(Hins & -> & ->)|(Hsuff & _ & _ & Hscore & _)]);
    eexists _, _; (split; [exact Hrun|]).
  - split; [by left|]. split; [done|].
    intros Hge. apply sufficient_policy_iff in Hge. congruence.
  - pose proof (clamp_risk_points_bounds _
                  (proj1 (accumulate_risk_bounds (claims r) (used_groups r)))) as Hclamp.
    split; [right; lia|]. split.
    + intros Hlt. apply sufficient_policy_iff in Hsuff. lia.
    + intros _. lia.
Qed.

(** The bound on a run with sixty [x] and the camera permission. *)
Lemma score_at_least_ten_witness :
  ∃ r g', compute_privacy_risk env_no_transformers
            ["android.permission.CAMERA"] sixty_x fresh_globals = (Returned r, g')
    ∧ 10 <= score r <= 100.
Proof.
  destruct (score_at_least_ten env_no_transformers
              ["android.permission.CAMERA"] sixty_x fresh_globals)
    as (r & g' & Hrun & _ & _ & Hlong).
  exists r, g'. split; [exact Hrun|].
  apply Hlong. by vm_compute.
Defined.

(** C4. With the one permission [android.permission.CAMERA] and a policy of
    sixty [x], scored with the keyword strategy's claims: the camera group is
    used, no claim holds, the penalties are 5 for breadth, 10 for the camera
    mismatch, 8 for third parties and 5 for security, with their four reasons
    in this order, so the score is 72 and the level MEDIUM. *)
Theorem camera_only_keywordless_policy (env : environment) (g : globals) :
  (extract_policy_claims env (PyStr.repeat "x" 60) g).1
  = Returned (_keyword_extract_claims (PyStr.repeat "x" 60)) →
  ∃ r g',
    compute_privacy_risk env ["android.permission.CAMERA"] (PyStr.repeat "x" 60) g
    = (Returned r, g')
    ∧ used_groups r !! "camera" = Some true
    ∧ claims r !! "mentions_camera" = Some false
    ∧ claims r !! "mentions_third_parties" = Some false
    ∧ claims r !! "mentions_security" = Some false
    ∧ reasons r
      = [ "App accesses at least one type of sensitive data.";
          "App accesses camera, but the privacy policy does not clearly mention it.";
          "Privacy policy does not clearly describe sharing with third parties or partners.";
          "Privacy policy does not mention data security or protection measures clearly." ]
    ∧ (accumulate_risk (claims r) (used_groups r)).1 = 5 + 10 + 8 + 5
    ∧ score r = 72
    ∧ level r = "MEDIUM".
Proof.
  intros Hkw.
  destruct (compute_privacy_risk_cases env ["android.permission.CAMERA"]
              (PyStr.repeat "x" 60) g)
    as (r & g' & Hrun & [(Hins & _)|(_ & Hext & Hused & Hscore & Hlevel & Hreasons)]).
  { by vm_compute in Hins. }
  exists r, g'. split; [exact Hrun|].
  rewrite Hext in Hkw. simpl in Hkw. injection Hkw as Hclaims.
  rewrite Hlevel, Hscore, Hreasons, Hclaims, Hused.
  by vm_compute.
Qed.

(** The example run where the [transformers] package is missing. *)
Lemma camera_only_keywordless_policy_witness :
  ∃ r g',
    compute_privacy_risk env_no_transformers ["android.permission.CAMERA"]
      (PyStr.repeat "x" 60) fresh_globals = (Returned r, g')
    ∧ score r = 72 ∧ level r = "MEDIUM".
Proof.
  destruct (camera_only_keywordless_policy env_no_transformers fresh_globals)
    as (r & g' & Hrun & _ & _ & _ & _ & _ & _ & Hscore & Hlevel).
  - by rewrite extract_policy_claims_no_classifier.
  - exists r, g'. split; [exact Hrun|]. split; assumption.
Defined.

(** Scores on both sides of each threshold are reached: 75 (LOW), 50 (MEDIUM)
    and 49 (HIGH); so are the ends 10 and 100 of the range. *)
Example score_75_low :
  ∃ r g', compute_privacy_risk env_no_transformers
            ["android.permission.READ_EXTERNAL_STORAGE"] sixty_x fresh_globals
          = (Returned r, g')
    ∧ score r = 75 ∧ level r = "LOW".
Proof.
  eexists _, _. split; [by apply compute_privacy_risk_no_transformers; vm_compute|].
  by vm_compute.
Qed.

Example score_50_medium :
  ∃ r g', compute_privacy_risk env_no_transformers
            ["android.permission.ACCESS_FINE_LOCATION"; "android.permission.READ_CONTACTS";
             "android.permission.READ_EXTERNAL_STORAGE"] sixty_x fresh_globals
          = (Returned r, g')
    ∧ score r = 50 ∧ level r = "MEDIUM".
Proof.
  eexists _, _. split; [by apply compute_privacy_risk_no_transformers; vm_compute|].
  by vm_compute.
Qed.

Example score_49_high :
  ∃ r g', compute_privacy_risk env_no_transformers
            ["android.permission.CAMERA"; "android.permission.ACCESS_FINE_LOCATION";
             "android.permission.READ_EXTERNAL_STORAGE"; "android.permission.CALL_PHONE";
             "com.google.android.gms.permission.AD_ID"]
            ("camera location partners" ++ sixty_x) fresh_globals
          = (Returned r, g')
    ∧ score r = 49 ∧ level r = "HIGH".
Proof.
  eexists _, _. split; [by apply compute_privacy_risk_no_transformers; vm_compute|].
  by vm_compute.
Qed.

Example score_10_lowest :
  ∃ r g', compute_privacy_risk env_no_transformers
            ["ACCESS_FINE_LOCATION"; "READ_CONTACTS"; "CAMERA"; "RECORD_AUDIO";
             "READ_EXTERNAL_STORAGE"; "CALL_PHONE"; "AD_ID"] sixty_x fresh_globals
          = (Returned r, g')
    ∧ (accumulate_risk (claims r) (used_groups r)).1 = 99
    ∧ score r = 10 ∧ level r = "HIGH".
Proof.
  eexists _, _. split; [by apply compute_privacy_risk_no_transformers; vm_compute|].
  by vm_compute.
Qed.

Example score_100_highest :
  ∃ r g', compute_privacy_risk env_no_transformers ["android.permission.INTERNET"]
            ("We share data with partners and keep it secure." ++ sixty_x) fresh_globals
          = (Returned r, g')
    ∧ score r = 100 ∧ level r = "LOW"
    ∧ reasons r = ["No major mismatches or privacy concerns detected based on available information."].
Proof.
  eexists _, _. split; [by apply compute_privacy_risk_no_transformers; vm_compute|].
  by vm_compute.
Qed.

(** ** Substring search *)

Section Substring.

Lemma append_String (c : ascii) (a b : string) : String c a ++ b = String c (a ++ b).
Proof. reflexivity. Qed.

Lemma append_empty_l (b : string) : "" ++ b = b.
Proof. reflexivity. Qed.

Lemma startswith_spec (s p : string) :
  PyStr.startswith s p = true ↔ ∃ b, s = p ++ b.
Proof.
  revert s. induction p as [|a p IH]; intros s; simpl.
  - split; [intros _; by exists s|done].
  - destruct s as [|c s].
    + split; [done|]. by intros [b Hb].
    + setoid_rewrite append_String.
      destruct (Ascii.eqb_spec a c) as [->|Hne].
      * rewrite IH. split; intros [b Hb]; exists b; congruence.
      * split; [done|]. intros [b Hb]. congruence.
Qed.

(** [p in s] holds exactly when [s] is some text, then [p], then some text. *)
Lemma contains_spec (p s : string) :
  PyStr.contains p s = true ↔ ∃ a b, s = a ++ p ++ b.
Proof.
  induction s as [|c s IH].
  - cbn [PyStr.contains]. rewrite orb_false_r, startswith_spec. split.
    + intros [b Hb]. by exists "", b.
    + intros ([|a0 a] & b & Hab); [by exists b|done].
  - cbn [PyStr.contains]. rewrite orb_true_iff, startswith_spec, IH. split.
    + intros [[b Hb]|(a & b & Hab)].
      * by exists "", b.
      * exists (String c a), b. by rewrite append_String, Hab.
    + intros ([|a0 a] & b & Hab).
      * left. by exists b.
      * right. exists a, b. rewrite append_String in Hab. congruence.
Qed.

Lemma contains_empty (s : string) : PyStr.contains "" s = true.
Proof. apply contains_spec. by exists "", s. Qed.

End Substring.

(** ** Tracker classification *)

Section ClassifyDomains.

Variable TRACKER_PATTERNS : list (string * string).


Lemma matched_category_Some (pats : list (string * string)) dom category :
  matched_category pats dom = Some category
  ↔ ∃ before pattern after,
      pats = (before ++ (pattern, category) :: after)%list
      ∧ PyStr.contains pattern dom = true
      ∧ Forall (fun pc => PyStr.contains pc.1 dom = false) before.
Proof.
  induction pats as [|[p c] pats IH]; simpl.
  - split; [done|]. intros (before & ? & ? & Heq & _). by destruct before.
  - destruct (PyStr.contains p dom) eqn:Hp.
    + split.
      * intros [= <-]. exists [], p, pats. by repeat split.
      * intros ([|[p0 c0] before] & pattern & after & Heq & Hin & Hbefore).
        -- simpl in Heq. congruence.
        -- simpl in Heq. apply Forall_cons in Hbefore as [Hp0 _].
           simpl in Hp0. congruence.
    + rewrite IH. split.
      * intros (before & pattern & after & -> & Hin & Hbefore).
        exists ((p, c) :: before), pattern, after. repeat split; [done|].
        by apply Forall_cons.
      * intros ([|[p0 c0] before] & pattern & after & Heq & Hin & Hbefore).
        -- simpl in Heq. congruence.
        -- simpl in Heq. apply Forall_cons in Hbefore as [_ Hbefore].
           exists before, pattern, after. repeat split; [congruence|done|done].
Qed.

Lemma matched_category_None (pats : list (string * string)) dom :
  matched_category pats dom = None
  ↔ Forall (fun pc => PyStr.contains pc.1 dom = false) pats.
Proof.
  induction pats as [|[p c] pats IH]; simpl.
  - split; [by constructor|done].
  - destruct (PyStr.contains p dom) eqn:Hp.
    + split; [done|]. intros [Hp' _]%Forall_cons. simpl in Hp'. congruence.
    + rewrite IH. split; [by constructor|]. by intros [_ ?]%Forall_cons.
Qed.

Lemma sum_values_insert (d : gmap string Z) (k : string) (n : Z) :
  sum_values (<[k := n]> d) = sum_values d - dict_get d k 0 + n.
Proof.
  unfold sum_values, dict_get.
  assert (∀ z1 z2 y : Z, z1 + (z2 + y) = z2 + (z1 + y)) as Hcomm
    by (intros; lia).
  destruct (d !! k) as [v|] eqn:Hk; simpl.
  - rewrite <- insert_delete_eq.
    rewrite map_fold_insert_L; [|intros; apply Hcomm|by rewrite lookup_delete_eq].
    rewrite (map_fold_delete_L _ _ k v d); [lia|intros; apply Hcomm|done].
  - rewrite map_fold_insert_L; [lia|intros; apply Hcomm|done].
Qed.

Lemma classify_step_classification dom acc :
  classify_step TRACKER_PATTERNS dom acc
  = match classification TRACKER_PATTERNS dom with
    | Some category =>
        (<[dom := category]> acc.1,
         <[category := dict_get acc.2 category 0 + 1]> acc.2)
    | None => acc
    end.
Proof.
  unfold classify_step, classification. destruct acc as [td cc].
  destruct (matched_category TRACKER_PATTERNS dom) as [category|]; [|done].
  by destruct (PyStr.truthy category).
Qed.

Lemma lookup_after_step (td : gmap string string) (Y : gset string) dom d :
  dom ∉ Y →
  (∀ d, td !! d = if decide (d ∈ Y) then classification TRACKER_PATTERNS d else None) →
  (match classification TRACKER_PATTERNS dom with
   | Some category => <[dom := category]> td
   | None => td
   end) !! d
  = if decide (d ∈ ({[dom]} ∪ Y : gset string))
    then classification TRACKER_PATTERNS d else None.
Proof.
  intros Hfresh Hlookup.
  assert (td !! dom = None) as Hnone.
  { rewrite Hlookup. by rewrite decide_False. }
  destruct (decide (d = dom)) as [->|Hne].
  - rewrite decide_True by (apply elem_of_union_l, elem_of_singleton; done).
    destruct (classification TRACKER_PATTERNS dom); [by rewrite lookup_insert_eq|done].
  - assert ((match classification TRACKER_PATTERNS dom with
             | Some category => <[dom := category]> td
             | None => td
             end) !! d = td !! d) as ->.
    { destruct (classification TRACKER_PATTERNS dom); [by rewrite lookup_insert_ne|done]. }
    rewrite Hlookup. destruct (decide (d ∈ Y)) as [Hin|Hout].
    + by rewrite decide_True by (by apply elem_of_union_r).
    + rewrite decide_False; [done|].
      rewrite elem_of_union, elem_of_singleton. tauto.
Qed.

Lemma loop_invariant_holds (X : gset string) :
  loop_invariant TRACKER_PATTERNS (set_fold (classify_step TRACKER_PATTERNS) (∅, ∅) X) X.
Proof.
  apply (set_fold_ind_L (loop_invariant TRACKER_PATTERNS)).
  - split; [|split; [|split]]; simpl.
    + intros dom. rewrite lookup_empty. by case_decide.
    + done.
    + intros category. unfold dict_get, filed_under.
      by rewrite lookup_empty, map_filter_empty.
    + intros ? ?. by rewrite lookup_empty.
  - intros dom Y [td cc] Hfresh (Hlookup & Hsum & Hfiled & Hpos).
    rewrite classify_step_classification. cbn [fst snd] in *.
    assert (td !! dom = None) as Hnone.
    { rewrite Hlookup. by rewrite decide_False. }
    pose proof (fun d => lookup_after_step td Y dom d Hfresh Hlookup) as Hstep.
    destruct (classification TRACKER_PATTERNS dom) as [category|] eqn:Hclass.
    2:{ by split; [|split; [|split]]. }
    split; [|split; [|split]]; cbn [fst snd].
    + exact Hstep.
    + rewrite sum_values_insert, map_size_insert_None by done. lia.
    + intros c. unfold filed_under, dict_get.
      destruct (decide (c = category)) as [->|Hne].
      * rewrite lookup_insert_eq. simpl.
        rewrite map_filter_insert_True by done.
        rewrite map_size_insert_None by (by rewrite map_lookup_filter_None; left).
        specialize (Hfiled category). unfold filed_under, dict_get in Hfiled.
        simpl. lia.
      * rewrite lookup_insert_ne by done.
        rewrite map_filter_insert_False by (simpl; congruence).
        rewrite delete_id by done. apply Hfiled.
    + intros c n. destruct (decide (c = category)) as [->|Hne].
      * rewrite lookup_insert_eq. intros [= <-]. unfold dict_get.
        destruct (cc !! category) as [v|] eqn:Hv; simpl; [|lia].
        specialize (Hpos _ _ Hv). lia.
      * rewrite lookup_insert_ne by done. apply Hpos.
Qed.

Lemma classify_step_comm d1 d2 acc :
  classify_step TRACKER_PATTERNS d1 (classify_step TRACKER_PATTERNS d2 acc)
  = classify_step TRACKER_PATTERNS d2 (classify_step TRACKER_PATTERNS d1 acc).
Proof.
  destruct (decide (d1 = d2)) as [->|Hne]; [done|].
  rewrite !classify_step_classification.
  destruct (classification TRACKER_PATTERNS d1) as [c1|],
           (classification TRACKER_PATTERNS d2) as [c2|]; try done.
  destruct acc as [td cc]. cbn [fst snd]. f_equal.
  - by apply insert_insert_ne.
  - destruct (decide (c1 = c2)) as [->|Hc]; [done|].
    unfold dict_get. rewrite !lookup_insert_ne by congruence.
    by apply insert_insert_ne.
Qed.

(** Python fixes no order for the iteration over a set: the two dictionaries
    the loop builds are the same in whatever order the domains come. *)
Lemma classify_loop_any_order (X : gset string) (l : list string) :
  l ≡ₚ elements X →
  foldr (classify_step TRACKER_PATTERNS) (∅, ∅) l
  = set_fold (classify_step TRACKER_PATTERNS) (∅, ∅) X.
Proof.
  intros Hl. unfold set_fold. simpl.
  by apply (foldr_permutation_proper (=) _ _ classify_step_comm).
Qed.

End ClassifyDomains.

Lemma classify_domains_loop pats (X : gset string) :
  tracker_domains (classify_domains pats X)
  = (set_fold (classify_step pats) (∅, ∅) X).1
  ∧ category_counts (classify_domains pats X)
    = (set_fold (classify_step pats) (∅, ∅) X).2
  ∧ num_trackers (classify_domains pats X)
    = Z.of_nat (size (tracker_domains (classify_domains pats X)))
  ∧ num_domains (classify_domains pats X) = Z.of_nat (size X)
  ∧ risk_level (classify_domains pats X)
    = risk_level_of (num_trackers (classify_domains pats X)).
Proof.
  unfold classify_domains.
  by destruct (set_fold (classify_step pats) (∅, ∅) X) as [td cc].
Qed.

(** A domain of the input is filed exactly when the loop body classifies it,
    and under the category the loop body finds. *)
Lemma classify_domains_lookup pats (X : gset string) dom :
  tracker_domains (classify_domains pats X) !! dom
  = if decide (dom ∈ X) then classification pats dom else None.
Proof.
  destruct (classify_domains_loop pats X) as (-> & _).
  apply (loop_invariant_holds pats X).
Qed.

(** X30. When no entry of the tracker list has an empty category, a domain of
    the input is a tracker exactly when some pattern occurs in it, and its
    category is that of the first such entry. *)
Lemma classify_domains_substring_match pats (X : gset string) dom category :
  Forall (fun pc => pc.2 ≠ "") pats →
  tracker_domains (classify_domains pats X) !! dom = Some category
  ↔ dom ∈ X
    ∧ ∃ before pattern after,
        pats = (before ++ (pattern, category) :: after)%list
        ∧ (∃ a b, dom = a ++ pattern ++ b)
        ∧ Forall (fun pc => ¬ ∃ a b, dom = a ++ pc.1 ++ b) before.
Proof.
  intros Hcats. rewrite classify_domains_lookup.
  assert (classification pats dom = Some category
          ↔ matched_category pats dom = Some category) as Hclass.
  { unfold classification.
    destruct (matched_category pats dom) as [c|] eqn:Hm; [|done].
    destruct (PyStr.truthy c) eqn:Ht; [done|].
    apply matched_category_Some in Hm as (before & pattern & after & -> & _).
    apply Forall_app in Hcats as [_ [Hc _]%Forall_cons]. by destruct c. }
  assert (∀ l, Forall (fun pc : string * string => PyStr.contains pc.1 dom = false) l
               ↔ Forall (fun pc => ¬ ∃ a b, dom = a ++ pc.1 ++ b) l) as Hnone.
  { intros l. apply Forall_proper; [|done]. intros pc.
    by rewrite <- contains_spec, not_true_iff_false. }
  case_decide as Hin.
  - rewrite Hclass, matched_category_Some. split.
    + intros (before & pattern & after & Heq & Hp & Hbefore). split; [done|].
      exists before, pattern, after. by rewrite <- contains_spec, <- Hnone.
    + intros (_ & before & pattern & after & Heq & Hp & Hbefore).
      exists before, pattern, after. by rewrite contains_spec, Hnone.
  - split; [done|]. by intros [? _].
Qed.

(** C5. For every tracker list and every set of domains, the risk level is
    read off the number of tracker domains alone: LOW for none, MEDIUM for 1
    to 10, HIGH above 10. With the built-in fallback list, the domains
    [example.com] and [ads.doubleclick.net] give one tracker,
    [ads.doubleclick.net] filed under [ads], and level MEDIUM. *)
Theorem risk_level_by_tracker_count (TRACKER_PATTERNS : list (string * string))
    (domains : gset string) (e : string) :
  risk_level (classify_domains TRACKER_PATTERNS domains)
  = (if num_trackers (classify_domains TRACKER_PATTERNS domains) =? 0 then "LOW"
     else if num_trackers (classify_domains TRACKER_PATTERNS domains) <=? 10 then "MEDIUM"
     else "HIGH")
  ∧ 0 <= num_trackers (classify_domains TRACKER_PATTERNS domains)
  ∧ load_tracker_list (Raised e) = fallback_trackers
  ∧ num_trackers (classify_domains (load_tracker_list (Raised e))
                    {["example.com"; "ads.doubleclick.net"]}) = 1
  ∧ tracker_domains (classify_domains (load_tracker_list (Raised e))
                       {["example.com"; "ads.doubleclick.net"]})
    = {["ads.doubleclick.net" := "ads"]}
  ∧ risk_level (classify_domains (load_tracker_list (Raised e))
                  {["example.com"; "ads.doubleclick.net"]}) = "MEDIUM".
Proof.
  destruct (classify_domains_loop TRACKER_PATTERNS domains) as (_ & _ & Hnum & _ & Hlevel).
  split; [|split; [lia|]].
  - rewrite Hlevel. unfold risk_level_of.
    repeat case_match; try done; lia.
  - change (load_tracker_list (Raised e)) with fallback_trackers.
    split; [done|]. split; [by vm_compute|]. split; [|by vm_compute].
    apply map_eq. intros dom. rewrite classify_domains_lookup.
    destruct (decide (dom = "ads.doubleclick.net")) as [->|Hne].
    + by vm_compute.
    + rewrite lookup_singleton_ne by done.
      case_decide as Hin; [|done].
      apply elem_of_union in Hin as [Hin|Hin]; apply elem_of_singleton in Hin;
        [subst dom|done].
      by vm_compute.
Qed.

(** C9. For every tracker list and every set of domains, the summary counts
    agree: [num_trackers] is the size of [tracker_domains], [num_domains] the
    size of the input, trackers are no more than domains, every tracker domain
    is a domain of the input, the counts per category add up to
    [num_trackers], and each count is the number of tracker domains filed
    under its category. *)
Theorem classify_domains_counts (TRACKER_PATTERNS : list (string * string))
    (domains : gset string) :
  num_trackers (classify_domains TRACKER_PATTERNS domains)
  = Z.of_nat (size (tracker_domains (classify_domains TRACKER_PATTERNS domains)))
  ∧ num_domains (classify_domains TRACKER_PATTERNS domains) = Z.of_nat (size domains)
  ∧ num_trackers (classify_domains TRACKER_PATTERNS domains)
    <= num_domains (classify_domains TRACKER_PATTERNS domains)
  ∧ dom (tracker_domains (classify_domains TRACKER_PATTERNS domains)) ⊆ domains
  ∧ sum_values (category_counts (classify_domains TRACKER_PATTERNS domains))
    = num_trackers (classify_domains TRACKER_PATTERNS domains)
  ∧ ∀ category,
      dict_get (category_counts (classify_domains TRACKER_PATTERNS domains)) category 0
      = filed_under category (tracker_domains (classify_domains TRACKER_PATTERNS domains)).
Proof.
  destruct (classify_domains_loop TRACKER_PATTERNS domains)
    as (Htd & Hcc & Hnum & Hdom & _).
  destruct (loop_invariant_holds TRACKER_PATTERNS domains)
    as (Hlookup & Hsum & Hfiled & _).
  rewrite <- Htd, <- Hcc in *.
  assert (dom (tracker_domains (classify_domains TRACKER_PATTERNS domains)) ⊆ domains)
    as Hsub.
  { intros d [c Hd]%elem_of_dom. rewrite Hlookup in Hd. by case_decide. }
  split; [done|]. split; [done|]. split; [|split; [done|split; [|done]]].
  - rewrite Hnum, Hdom. apply subseteq_size in Hsub. rewrite size_dom in Hsub. lia.
  - by rewrite Hsum, Hnum.
Qed.

(** C6, at a tracker list whose matching entry has an empty category (a row
    [doubleclick.net,] of [trackers.csv]): the pattern occurs in the domain and
    the inner loop stops on it, yet the domain is not filed as a tracker, none
    is counted, and the level is LOW. *)
Theorem empty_category_not_classified :
  load_tracker_list
    (Returned [ {["domain" := Some "doubleclick.net"; "category" := Some ""]} ])
  = [("doubleclick.net", "")]
  ∧ PyStr.contains "doubleclick.net" "ads.doubleclick.net" = true
  ∧ matched_category [("doubleclick.net", "")] "ads.doubleclick.net" = Some ""
  ∧ tracker_domains (classify_domains [("doubleclick.net", "")] {["ads.doubleclick.net"]})
      !! "ads.doubleclick.net" = None
  ∧ num_trackers (classify_domains [("doubleclick.net", "")] {["ads.doubleclick.net"]}) = 0
  ∧ risk_level (classify_domains [("doubleclick.net", "")] {["ads.doubleclick.net"]}) = "LOW"
  ∧ tracker_domains
      (classify_domains [("doubleclick.net", ""); ("doubleclick.net", "ads")]
         {["ads.doubleclick.net"]}) !! "ads.doubleclick.net" = None.
Proof. repeat split; by vm_compute. Qed.


(** ** Domain cleaning *)

Section CleanDomain.

Lemma lower_char_idemp (c : ascii) : PyStr.lower_char (PyStr.lower_char c) = PyStr.lower_char c.
Proof. destruct c as [[] [] [] [] [] [] [] []]; reflexivity. Qed.

Lemma lower_idemp (s : string) : PyStr.lower (PyStr.lower s) = PyStr.lower s.
Proof. induction s as [|c s IH]; simpl; [done|]. by rewrite lower_char_idemp, IH. Qed.

Lemma before_first_no_sep sep (s : string) :
  PyStrExt.has_char sep (PyStrExt.before_first sep s) = false.
Proof.
  induction s as [|c s IH]; simpl; [done|].
  destruct (Ascii.eqb c sep) eqn:Hc; simpl; [done|]. by rewrite Hc, IH.
Qed.

Lemma before_first_lower (s : string) :
  PyStr.lower s = s →
  PyStr.lower (PyStrExt.before_first ":" s) = PyStrExt.before_first ":" s.
Proof.
  induction s as [|c s IH]; simpl; [done|]. intros [= Hc Hs].
  destruct (Ascii.eqb c ":"); simpl; [done|]. by rewrite Hc, IH.
Qed.

Lemma drop_no_sep sep n (s : string) :
  PyStrExt.has_char sep s = false → PyStrExt.has_char sep (PyStrExt.drop n s) = false.
Proof.
  revert s. induction n as [|n IH]; intros [|c s]; simpl; try done.
  intros [_ Hs]%orb_false_iff. by apply IH.
Qed.

Lemma drop_lower n (s : string) :
  PyStr.lower s = s → PyStr.lower (PyStrExt.drop n s) = PyStrExt.drop n s.
Proof.
  revert s. induction n as [|n IH]; intros [|c s]; simpl; try done.
  intros [= _ Hs]. by apply IH.
Qed.

End CleanDomain.

Lemma clean_domain_no_colon_lower (lib : url_library) (url : string) :
  PyStrExt.has_char ":" (_clean_domain lib url) = false
  ∧ PyStr.lower (_clean_domain lib url) = _clean_domain lib url.
Proof.
  unfold _clean_domain. destruct (urlparse_netloc lib url) as [netloc|e]; [|done].
  cbv zeta. pose proof (lower_idemp netloc) as Hlow.
  set (host := PyStr.lower netloc) in *. clearbody host.
  split.
  - destruct (PyStrExt.has_char ":" host) eqn:Hcolon.
    + pose proof (before_first_no_sep ":" host) as Hb.
      destruct (PyStr.startswith _ "www."); [by apply drop_no_sep|done].
    + destruct (PyStr.startswith host "www."); [by apply drop_no_sep|done].
  - destruct (PyStrExt.has_char ":" host).
    + pose proof (before_first_lower host Hlow) as Hb.
      destruct (PyStr.startswith _ "www."); [by apply drop_lower|done].
    + destruct (PyStr.startswith host "www."); [by apply drop_lower|done].
Qed.

(** X1. Whatever [urlparse] gives, the domain [_clean_domain] returns holds no
    colon (the port, and anything else after the first colon, is cut) and is
    in lower case; it is the empty string when [urlparse] raises. *)
Theorem clean_domain_shape (lib : url_library) (url : string) :
  PyStrExt.has_char ":" (_clean_domain lib url) = false
  ∧ PyStr.lower (_clean_domain lib url) = _clean_domain lib url
  ∧ (∀ e, urlparse_netloc lib url = Raised e → _clean_domain lib url = "").
Proof.
  destruct (clean_domain_no_colon_lower lib url) as [Hcolon Hlower].
  split; [done|]. split; [done|].
  intros e He. unfold _clean_domain. by rewrite He.
Qed.

(** ** URL scanning *)

Section UrlScanning.

Lemma append_assoc (a b c : string) : (a ++ b) ++ c = a ++ b ++ c.
Proof. induction a as [|x a IH]; [done|]. by rewrite !append_String, IH. Qed.

Lemma append_empty_r (a : string) : a ++ "" = a.
Proof. induction a as [|x a IH]; [done|]. by rewrite append_String, IH. Qed.

Lemma drop_length_append (a b : string) : PyStrExt.drop (String.length a) (a ++ b) = b.
Proof. induction a as [|x a IH]; [done|]. by rewrite append_String. Qed.

Lemma url_run_only (s : string) : only_url_bytes (url_run s) = true.
Proof.
  induction s as [|c s IH]; simpl; [done|].
  destruct (url_byte c) eqn:Hc; simpl; [|done]. by rewrite Hc, IH.
Qed.

(** The run is the head of the text, and stops at the end of the text or at a
    byte outside the class. *)
Lemma url_run_split (s : string) : ∃ b, s = url_run s ++ b ∧ url_run b = "".
Proof.
  induction s as [|c s (b & Hs & Hb)]; simpl.
  - by exists "".
  - destruct (url_byte c) eqn:Hc.
    + exists b. by rewrite append_String, <- Hs.
    + exists (String c s). simpl. by rewrite Hc.
Qed.

Lemma match_scheme_Some scheme data m :
  match_scheme scheme data = Some m →
  ∃ run b, m = scheme ++ run ∧ run ≠ "" ∧ only_url_bytes run = true
           ∧ data = m ++ b ∧ url_run b = "".
Proof.
  unfold match_scheme. destruct (PyStr.startswith data scheme) eqn:Hs; [|done].
  apply startswith_spec in Hs as [tail ->]. rewrite drop_length_append.
  destruct (url_run_split tail) as (b & Htail & Hb).
  pose proof (url_run_only tail) as Honly.
  destruct (url_run tail) as [|c run] eqn:Hrun; [done|]. intros [= <-].
  exists (String c run), b. repeat split; try done.
  by rewrite append_assoc, <- Htail.
Qed.

Lemma URL_PATTERN_match_Some data m :
  URL_PATTERN_match data = Some m →
  ∃ run b, (m = "http://" ++ run ∨ m = "https://" ++ run)
           ∧ run ≠ "" ∧ only_url_bytes run = true
           ∧ data = m ++ b ∧ url_run b = "".
Proof.
  unfold URL_PATTERN_match.
  destruct (match_scheme "https://" data) as [m'|] eqn:Hs.
  - intros [= <-]. apply match_scheme_Some in Hs as (run & b & ? & ? & ? & ? & ?).
    exists run, b. by repeat split; [right|..].
  - intros Hm. apply match_scheme_Some in Hm as (run & b & ? & ? & ? & ? & ?).
    exists run, b. by repeat split; [left|..].
Qed.

Lemma findall_from_spec skip data m :
  m ∈ findall_from skip data →
  ∃ run a b, (m = "http://" ++ run ∨ m = "https://" ++ run)
             ∧ run ≠ "" ∧ only_url_bytes run = true
             ∧ data = a ++ m ++ b ∧ url_run b = "".
Proof.
  revert skip. induction data as [|c rest IH]; intros skip; simpl.
  - by intros ?%elem_of_nil.
  - assert (∀ k, m ∈ findall_from k rest →
              ∃ run a b, (m = "http://" ++ run ∨ m = "https://" ++ run)
                ∧ run ≠ "" ∧ only_url_bytes run = true
                ∧ String c rest = a ++ m ++ b ∧ url_run b = "") as Hrest.
    { intros k (run & a & b & ? & ? & ? & -> & ?)%IH.
      exists run, (String c a), b. by rewrite append_String. }
    destruct skip as [|skip]; [|by apply Hrest].
    destruct (URL_PATTERN_match (String c rest)) as [m'|] eqn:Hm; [|by apply Hrest].
    intros [->|Hin]%elem_of_cons; [|by eapply Hrest].
    apply URL_PATTERN_match_Some in Hm as (run & b & ? & ? & ? & ? & ?).
    by exists run, "", b.
Qed.

End UrlScanning.

(** X2. Every match [URL_PATTERN.findall] returns is [http://] or [https://]
    followed by at least one byte, all of them outside white space, quotes and
    angle brackets; it stands in the data, and runs up to the end of the data
    or to a byte outside the class. *)
Theorem findall_matches_are_urls (data m : string) :
  m ∈ URL_PATTERN_findall data →
  ∃ run a b, (m = "http://" ++ run ∨ m = "https://" ++ run)
             ∧ run ≠ "" ∧ only_url_bytes run = true
             ∧ data = a ++ m ++ b ∧ url_run b = "".
Proof. apply findall_from_spec. Qed.

(** Two URLs in a line of text: the quote and the blank end them; a bare scheme
    is no match. *)
Lemma findall_matches_are_urls_witness :
  URL_PATTERN_findall "a href='http://www.Example.com:8080/x' https://ads.doubleclick.net/q http:// "
  = ["http://www.Example.com:8080/x"; "https://ads.doubleclick.net/q"]
  ∧ ∃ run a b, ("https://ads.doubleclick.net/q" = "http://" ++ run
                ∨ "https://ads.doubleclick.net/q" = "https://" ++ run)
      ∧ run ≠ "" ∧ only_url_bytes run = true
      ∧ "a href='http://www.Example.com:8080/x' https://ads.doubleclick.net/q http:// "
        = a ++ "https://ads.doubleclick.net/q" ++ b
      ∧ url_run b = "".
Proof.
  split; [reflexivity|].
  apply findall_matches_are_urls. vm_compute.
  apply elem_of_cons. right. apply elem_of_cons. by left.
Defined.

Lemma URL_PATTERN_match_scheme_found (scheme : string) (c : ascii) (rest : string) :
  scheme = "http://" ∨ scheme = "https://" →
  url_byte c = true →
  URL_PATTERN_match (scheme ++ String c rest) ≠ None.
Proof.
  intros [-> | ->] Hc; unfold URL_PATTERN_match, match_scheme; simpl; by rewrite Hc.
Qed.

Lemma findall_from_nil_no_match (a s : string) :
  findall_from 0 (a ++ s) = [] → s = "" ∨ URL_PATTERN_match s = None.
Proof.
  induction a as [|x a IH].
  - rewrite append_empty_l. destruct s as [|c s]; [by left|]. cbn [findall_from].
    destruct (URL_PATTERN_match (String c s)); [done|by right].
  - rewrite append_String. cbn [findall_from].
    destruct (URL_PATTERN_match (String x (a ++ s))); [done|]. apply IH.
Qed.

(** X3. A scheme [http://] or [https://] followed by a byte of the class does
    not go unnoticed: wherever it stands in the data, [URL_PATTERN.findall]
    returns at least one match. *)
Theorem findall_finds_a_url (a scheme : string) (c : ascii) (rest : string) :
  scheme = "http://" ∨ scheme = "https://" →
  url_byte c = true →
  URL_PATTERN_findall (a ++ scheme ++ String c rest) ≠ [].
Proof.
  intros Hscheme Hc Hnil. unfold URL_PATTERN_findall in Hnil.
  apply findall_from_nil_no_match in Hnil as [Hempty|Hnone].
  - by destruct Hscheme as [-> | ->].
  - by apply (URL_PATTERN_match_scheme_found scheme c rest).
Qed.

(** A URL in the middle of binary data. *)
Lemma findall_finds_a_url_witness :
  URL_PATTERN_findall ("PK" ++ "https://" ++ String "t" ".co") ≠ [].
Proof. apply findall_finds_a_url; [by right|reflexivity]. Defined.

(** ** Domain extraction *)

Section ExtractDomains.

Variable lib : url_library.

Lemma add_domains_elem (matches : list string) (domains : gset string) (d : string) :
  d ∈ add_domains lib matches domains
  ↔ d ∈ domains
    ∨ (d ≠ "" ∧ ∃ m, m ∈ matches ∧ d = _clean_domain lib (decode_ignore lib m)).
Proof.
  unfold add_domains. revert domains.
  induction matches as [|m0 matches IH]; intros domains; cbn [foldl].
  - split; [by left|]. intros [?|(_ & m & ?%elem_of_nil & _)]; done.
  - rewrite IH. cbv zeta.
    set (d0 := _clean_domain lib (decode_ignore lib m0)).
    assert (d ∈ (if PyStr.truthy d0 then {[d0]} ∪ domains else domains)
            ↔ d ∈ domains ∨ (d ≠ "" ∧ d = d0)) as ->.
    { destruct d0 as [|c0 d0]; simpl.
      - split; [by left|]. by intros [?|[? ?]].
      - rewrite elem_of_union, elem_of_singleton. split.
        + intros [->|?]; [by right|by left].
        + intros [?|[_ ->]]; [by right|by left]. }
    split.
    + intros [[?|[? ->]]|(? & m & ? & ?)]; [by left|right..].
      * split; [done|]. exists m0. split; [apply elem_of_cons; by left|done].
      * split; [done|]. exists m. split; [apply elem_of_cons; by right|done].
    + intros [?|(? & m & [->|?]%elem_of_cons & ->)].
      * by left; left.
      * by left; right.
      * right. split; [done|]. by exists m.
Qed.

Lemma scan_entry_elem max_file_size (domains : gset string) (info : zip_entry) d :
  d ∈ scan_entry lib max_file_size domains info
  ↔ d ∈ domains
    ∨ (scanned max_file_size info = true
       ∧ ∃ data m, read info = Returned data
           ∧ m ∈ URL_PATTERN_findall data
           ∧ d = _clean_domain lib (decode_ignore lib m)
           ∧ d ≠ "").
Proof.
  unfold scan_entry, scanned. cbv zeta.
  destruct (is_dir info); cbn [negb andb].
  { split; [by left|]. by intros [?|[? _]]. }
  destruct (existsb (PyStr.endswith (PyStr.lower (filename info))) SKIPPED_EXTENSIONS);
    cbn [negb andb].
  { split; [by left|]. by intros [?|[? _]]. }
  destruct (max_file_size <? file_size info); cbn [negb andb].
  { split; [by left|]. by intros [?|[? _]]. }
  destruct (read info) as [data|e].
  - rewrite add_domains_elem. split.
    + intros [?|(? & m & ? & ?)]; [by left|]. right. split; [done|]. by exists data, m.
    + intros [?|(_ & data' & m & [= <-] & ? & ? & ?)]; [by left|].
      right. split; [done|]. by exists m.
  - split; [by left|]. by intros [?|(_ & ? & ? & ? & _)].
Qed.

Lemma scan_entries_elem max_file_size (entries : list zip_entry) (domains : gset string) d :
  d ∈ foldl (scan_entry lib max_file_size) domains entries
  ↔ d ∈ domains
    ∨ ∃ info data m, info ∈ entries
        ∧ scanned max_file_size info = true
        ∧ read info = Returned data
        ∧ m ∈ URL_PATTERN_findall data
        ∧ d = _clean_domain lib (decode_ignore lib m)
        ∧ d ≠ "".
Proof.
  revert domains. induction entries as [|info0 entries IH]; intros domains; cbn [foldl].
  - split; [by left|]. by intros [?|(? & ? & ? & ?%elem_of_nil & _)].
  - rewrite IH, scan_entry_elem. split.
    + intros [[?|(? & data & m & ? & ? & ? & ?)]|(info & data & m & ? & ?)].
      * by left.
      * right. exists info0, data, m. split; [apply elem_of_cons; by left|done].
      * right. exists info, data, m. split; [apply elem_of_cons; by right|done].
    + intros [?|(info & data & m & [->|?]%elem_of_cons & ? & ? & ? & ? & ?)].
      * by left; left.
      * left; right. split; [done|]. by exists data, m.
      * right. by exists info, data, m.
Qed.

End ExtractDomains.

Lemma extract_domains_elem (lib : url_library)
    (archive : outcome (list zip_entry)) (max_file_size : Z) (d : string) :
  d ∈ extract_domains_from_apk lib archive max_file_size
  ↔ ∃ entries info data m,
      archive = Returned entries
      ∧ info ∈ entries
      ∧ scanned max_file_size info = true
      ∧ read info = Returned data
      ∧ m ∈ URL_PATTERN_findall data
      ∧ d = _clean_domain lib (decode_ignore lib m)
      ∧ d ≠ "".
Proof.
  unfold extract_domains_from_apk. destruct archive as [entries|e].
  - rewrite scan_entries_elem. split.
    + intros [?%not_elem_of_empty|(info & data & m & ?)]; [done|].
      by exists entries, info, data, m.
    + intros (entries' & info & data & m & [= <-] & ?). right. by exists info, data, m.
  - split; [by intros ?%not_elem_of_empty|]. by intros (? & ? & ? & ? & ? & _).
Qed.


(** X5. Every domain [extract_domains_from_apk] returns is a non-empty string
    in lower case without a colon. *)
Theorem extracted_domains_are_clean (lib : url_library)
    (archive : outcome (list zip_entry)) (max_file_size : Z) (d : string) :
  d ∈ extract_domains_from_apk lib archive max_file_size →
  d ≠ "" ∧ PyStrExt.has_char ":" d = false ∧ PyStr.lower d = d.
Proof.
  intros (entries & info & data & m & _ & _ & _ & _ & _ & -> & Hne)%extract_domains_elem.
  split; [done|]. apply clean_domain_no_colon_lower.
Qed.

(** The extraction run on the sample archive: of its five entries only the
    last is scanned, and its two URLs give two domains. *)
Lemma extracted_domains_are_clean_witness :
  elements (extract_domains_from_apk ascii_library sample_archive default_max_file_size)
  ≡ₚ ["example.com"; "ads.doubleclick.net"]
  ∧ "example.com" ≠ ""
  ∧ PyStrExt.has_char ":" "example.com" = false
  ∧ PyStr.lower "example.com" = "example.com".
Proof.
  split; [vm_compute; solve_Permutation|].
  apply (extracted_domains_are_clean ascii_library sample_archive default_max_file_size).
  apply (bool_decide_unpack _). vm_compute. exact I.
Defined.

(** ** The summary of an archive *)

Lemma classify_domains_empty (TRACKER_PATTERNS : list (string * string)) :
  classify_domains TRACKER_PATTERNS ∅ = empty_summary.
Proof.
  unfold classify_domains, empty_summary.
  rewrite (set_fold_empty (C := gset string)), elements_empty, size_empty.
  reflexivity.
Qed.

(** X6. When the extraction finds no domain, because the archive does not
    open, or none of its entries is scanned or holds a URL, [analyze_trackers]
    reports the same summary as for an application without trackers: no domain,
    no tracker, level LOW; it does not raise. *)
Theorem analyze_trackers_nothing_found (lib : url_library)
    (TRACKER_PATTERNS : list (string * string)) (archive : outcome (list zip_entry)) :
  extract_domains_from_apk lib archive default_max_file_size = ∅ →
  analyze_trackers lib TRACKER_PATTERNS archive = empty_summary.
Proof.
  intros Hempty. unfold analyze_trackers. rewrite Hempty.
  apply classify_domains_empty.
Qed.

(** An archive that is no zip file, with the built-in tracker list. *)
Lemma analyze_trackers_nothing_found_witness :
  analyze_trackers ascii_library fallback_trackers (Raised "BadZipFile: File is not a zip file")
  = empty_summary.
Proof. by apply analyze_trackers_nothing_found. Defined.

(** ** The order of [sorted] *)

Section StringOrder.

Lemma str_le_total : Total str_le.
Proof. intros a b. apply String.leb_total. Qed.

Lemma str_le_antisym : AntiSymm eq str_le.
Proof. intros a b. apply String.leb_antisym. Qed.

Lemma str_le_trans : Transitive str_le.
Proof.
  unfold str_le, String.leb. intros a.
  induction a as [|x a IH]; intros [|y b] [|z c]; simpl; try done.
  unfold Ascii.compare.
  destruct (N.compare_spec (N_of_ascii x) (N_of_ascii y)) as [Hxy|Hxy|Hxy];
    destruct (N.compare_spec (N_of_ascii y) (N_of_ascii z)) as [Hyz|Hyz|Hyz];
    destruct (N.compare_spec (N_of_ascii x) (N_of_ascii z)) as [Hxz|Hxz|Hxz];
    try done; try lia.
  apply IH.
Qed.

(** What [sorted(set(l))] is: ascending, without repetition, and with exactly
    the elements of [l]. *)
Lemma sorted_elements (X : gset string) :
  Sorted str_le (merge_sort str_le (elements X))
  ∧ NoDup (merge_sort str_le (elements X))
  ∧ (∀ d, d ∈ merge_sort str_le (elements X) ↔ d ∈ X)
  ∧ length (merge_sort str_le (elements X)) = size X.
Proof.
  pose proof (merge_sort_Permutation str_le (elements X)) as Hperm.
  split; [apply Sorted_merge_sort, str_le_total|].
  split; [rewrite Hperm; apply NoDup_elements|].
  split; [intros d; by rewrite Hperm, elem_of_elements|].
  by rewrite Hperm.
Qed.

End StringOrder.

(** ** Further properties of the classification *)

Section ClassifyMore.

Variable TRACKER_PATTERNS : list (string * string).

Lemma tracker_domains_mono (X Y : gset string) :
  X ⊆ Y →
  tracker_domains (classify_domains TRACKER_PATTERNS X)
  ⊆ tracker_domains (classify_domains TRACKER_PATTERNS Y).
Proof.
  intros Hsub. apply map_subseteq_spec. intros d c.
  rewrite !classify_domains_lookup. case_decide as Hin; [|done].
  by rewrite decide_True by (by apply Hsub).
Qed.

Lemma risk_level_of_cases n :
  0 <= n →
  (risk_level_of n = "LOW" ∧ n = 0)
  ∨ (risk_level_of n = "MEDIUM" ∧ 1 <= n <= 10)
  ∨ (risk_level_of n = "HIGH" ∧ 10 < n).
Proof.
  intros Hn. unfold risk_level_of.
  destruct (Z.eqb_spec n 0); [by left|].
  destruct (Z.leb_spec n 3); [right; left; split; [done|lia]|].
  destruct (Z.leb_spec n 10); [right; left; split; [done|lia]|].
  right. right. split; [done|lia].
Qed.

End ClassifyMore.

(** X7. Classification grows with the set of domains: for sets [X ⊆ Y], every
    tracker domain found in [X] is found in [Y] under the same category, the
    count of trackers does not drop, and the level does not drop either (HIGH
    stays HIGH, and LOW for [Y] means LOW for [X]). *)
Theorem classify_domains_monotone (TRACKER_PATTERNS : list (string * string))
    (X Y : gset string) :
  X ⊆ Y →
  tracker_domains (classify_domains TRACKER_PATTERNS X)
  ⊆ tracker_domains (classify_domains TRACKER_PATTERNS Y)
  ∧ num_trackers (classify_domains TRACKER_PATTERNS X)
    <= num_trackers (classify_domains TRACKER_PATTERNS Y)
  ∧ (risk_level (classify_domains TRACKER_PATTERNS X) = "HIGH" →
     risk_level (classify_domains TRACKER_PATTERNS Y) = "HIGH")
  ∧ (risk_level (classify_domains TRACKER_PATTERNS Y) = "LOW" →
     risk_level (classify_domains TRACKER_PATTERNS X) = "LOW").
Proof.
  intros Hsub.
  pose proof (tracker_domains_mono TRACKER_PATTERNS X Y Hsub) as Htd.
  destruct (classify_domains_loop TRACKER_PATTERNS X) as (_ & _ & HnX & _ & HlX).
  destruct (classify_domains_loop TRACKER_PATTERNS Y) as (_ & _ & HnY & _ & HlY).
  apply map_subseteq_size in Htd as Hsize.
  assert (num_trackers (classify_domains TRACKER_PATTERNS X)
          <= num_trackers (classify_domains TRACKER_PATTERNS Y)) as Hle by lia.
  split; [done|]. split; [done|]. rewrite HlX, HlY.
  destruct (risk_level_of_cases (num_trackers (classify_domains TRACKER_PATTERNS X)))
    as [[-> ?]|[[-> ?]|[-> ?]]]; [lia|..];
  destruct (risk_level_of_cases (num_trackers (classify_domains TRACKER_PATTERNS Y)))
    as [[-> ?]|[[-> ?]|[-> ?]]]; try lia; by split.
Qed.

(** One tracker among one domain, then among two. *)
Lemma classify_domains_monotone_witness :
  num_trackers (classify_domains fallback_trackers {["ads.doubleclick.net"]})
  <= num_trackers (classify_domains fallback_trackers
                     {["ads.doubleclick.net"; "graph.facebook.com"]}).
Proof.
  apply (classify_domains_monotone fallback_trackers
           {["ads.doubleclick.net"]} {["ads.doubleclick.net"; "graph.facebook.com"]}).
  apply union_subseteq_l.
Defined.

(** X8. [category_counts] has an entry for exactly the categories some tracker
    domain is filed under, and the entry is the number of those domains: no
    count is zero, and no category in use is missing. *)
Theorem category_counts_exact (TRACKER_PATTERNS : list (string * string))
    (domains : gset string) (category : string) (n : Z) :
  category_counts (classify_domains TRACKER_PATTERNS domains) !! category = Some n
  ↔ 0 < n
    ∧ n = filed_under category (tracker_domains (classify_domains TRACKER_PATTERNS domains)).
Proof.
  destruct (classify_domains_loop TRACKER_PATTERNS domains) as (-> & -> & _).
  destruct (loop_invariant_holds TRACKER_PATTERNS domains) as (_ & _ & Hfiled & Hpos).
  specialize (Hfiled category). unfold dict_get in Hfiled. split.
  - intros Hn. split; [by eapply Hpos|]. by rewrite Hn in Hfiled.
  - intros [Hpos' ->].
    destruct (_ !! category) as [k|] eqn:Hk; simpl in Hfiled; [by rewrite Hfiled|lia].
Qed.

(** X9. [all_domains] lists the input set in ascending order, each domain
    once, and as many as [num_domains] says. *)
Theorem all_domains_sorted (TRACKER_PATTERNS : list (string * string))
    (domains : gset string) :
  Sorted str_le (all_domains (classify_domains TRACKER_PATTERNS domains))
  ∧ NoDup (all_domains (classify_domains TRACKER_PATTERNS domains))
  ∧ (∀ d, d ∈ all_domains (classify_domains TRACKER_PATTERNS domains) ↔ d ∈ domains)
  ∧ Z.of_nat (length (all_domains (classify_domains TRACKER_PATTERNS domains)))
    = num_domains (classify_domains TRACKER_PATTERNS domains).
Proof.
  assert (all_domains (classify_domains TRACKER_PATTERNS domains)
          = merge_sort str_le (elements domains)) as ->.
  { unfold classify_domains. by destruct (set_fold _ _ _). }
  destruct (classify_domains_loop TRACKER_PATTERNS domains) as (_ & _ & _ & -> & _).
  destruct (sorted_elements domains) as (? & ? & ? & ->). done.
Qed.

(** ** Loading the tracker list *)

Section LoadTrackerList.

Lemma read_rows_complete (rows : list csv_row) (trackers : list (string * string)) :
  forallb row_complete rows = true →
  read_rows rows trackers = Returned (trackers ++ omap row_entry rows)%list.
Proof.
  revert trackers. induction rows as [|row rows IH]; intros trackers; cbn [forallb read_rows].
  - intros _. simpl. by rewrite app_nil_r.
  - intros [Hrow Hrows]%andb_true_iff.
    change (omap row_entry (row :: rows))
      with (match row_entry row with
            | Some entry => entry :: omap row_entry rows
            | None => omap row_entry rows
            end).
    unfold row_complete in Hrow. unfold row_entry at 1.
    destruct (dict_get row "domain" (Some "")) as [d|]; [|done].
    destruct (dict_get row "category" (Some "tracker")) as [c|]; [|done].
    cbv zeta. rewrite IH by done.
    destruct (PyStr.truthy _); [|done].
    unfold append. by rewrite <- app_assoc.
Qed.

Lemma read_rows_incomplete (rows : list csv_row) (trackers : list (string * string)) :
  forallb row_complete rows = false →
  ∃ e, read_rows rows trackers = Raised e.
Proof.
  revert trackers. induction rows as [|row rows IH]; intros trackers; cbn [forallb read_rows].
  - done.
  - unfold row_complete.
    destruct (dict_get row "domain" (Some "")) as [d|]; [|by eexists].
    destruct (dict_get row "category" (Some "tracker")) as [c|]; [|by eexists].
    cbn [andb]. apply IH.
Qed.

Lemma row_entry_normal (row : csv_row) (pattern category : string) :
  row_entry row = Some (pattern, category) →
  pattern ≠ "" ∧ PyStr.lower pattern = pattern ∧ PyStr.lower category = category.
Proof.
  unfold row_entry.
  destruct (dict_get row "domain" (Some "")) as [d|]; [|done].
  destruct (dict_get row "category" (Some "tracker")) as [c|]; [|done].
  cbv zeta. destruct (PyStr.truthy _) eqn:Ht; [|done]. intros [= <- <-].
  rewrite !lower_idemp. split; [|done]. by intros Heq; rewrite Heq in Ht.
Qed.

Lemma load_tracker_list_rows (rows : list csv_row) :
  load_tracker_list (Returned rows)
  = if forallb row_complete rows then omap row_entry rows else fallback_trackers.
Proof.
  unfold load_tracker_list. destruct (forallb row_complete rows) eqn:Hrows.
  - by rewrite read_rows_complete.
  - by destruct (read_rows_incomplete rows [] Hrows) as [e ->].
Qed.

End LoadTrackerList.

(** X10. Loading the tracker list is all or nothing. When every row has both
    cells, the list is the rows' entries in the order of the file, rows with a
    blank domain left out (so a file without usable rows gives the empty list,
    not the built-in one). When a single row lacks a cell, or the file cannot
    be read, every row read so far is dropped and the list is the built-in
    one. *)
Theorem load_tracker_list_all_or_nothing (rows : list csv_row) (e : string) :
  load_tracker_list (Returned rows)
  = (if forallb row_complete rows then omap row_entry rows else fallback_trackers)
  ∧ load_tracker_list (Raised e) = fallback_trackers.
Proof. split; [apply load_tracker_list_rows|done]. Qed.

(** X11. Whatever the file holds, no pattern of the loaded list is empty (an
    empty pattern would occur in every domain), and patterns and categories
    are in lower case. *)
Theorem loaded_patterns_normal (file : outcome (list csv_row)) :
  Forall (fun pc => pc.1 ≠ "" ∧ PyStr.lower pc.1 = pc.1 ∧ PyStr.lower pc.2 = pc.2)
         (load_tracker_list file).
Proof.
  assert (Forall (fun pc : string * string =>
                    pc.1 ≠ "" ∧ PyStr.lower pc.1 = pc.1 ∧ PyStr.lower pc.2 = pc.2)
                 fallback_trackers) as Hfallback.
  { repeat constructor; done. }
  destruct file as [rows|e]; [|done].
  rewrite load_tracker_list_rows. destruct (forallb row_complete rows); [|done].
  apply Forall_forall. intros [pattern category] Hin.
  apply list_elem_of_omap in Hin as (row & _ & Hrow).
  by apply row_entry_normal in Hrow.
Qed.

(** ** Entries that never match *)

Section Shadowing.

Lemma contains_trans (p q s : string) :
  PyStr.contains p q = true → PyStr.contains q s = true → PyStr.contains p s = true.
Proof.
  rewrite !contains_spec. intros (a & b & ->) (a' & b' & ->).
  exists (a' ++ a), (b ++ b'). by rewrite !append_assoc.
Qed.

Lemma matched_category_app (before after : list (string * string)) dom :
  matched_category (before ++ after) dom
  = match matched_category before dom with
    | Some category => Some category
    | None => matched_category after dom
    end.
Proof.
  induction before as [|[p c] before IH]; simpl; [done|].
  by destruct (PyStr.contains p dom).
Qed.

Lemma matched_category_shadowed before mid after p1 c1 p2 c2 dom :
  PyStr.contains p1 p2 = true →
  matched_category (before ++ (p1, c1) :: mid ++ (p2, c2) :: after) dom
  = matched_category (before ++ (p1, c1) :: mid ++ after) dom.
Proof.
  intros Hsub. rewrite !matched_category_app. destruct (matched_category before dom); [done|].
  cbn [matched_category]. destruct (PyStr.contains p1 dom) eqn:Hp1; [done|].
  rewrite !matched_category_app. destruct (matched_category mid dom); [done|].
  cbn [matched_category]. destruct (PyStr.contains p2 dom) eqn:Hp2; [|done].
  by rewrite (contains_trans p1 p2 dom) in Hp1.
Qed.

Lemma classify_domains_ext (pats pats' : list (string * string)) (X : gset string) :
  (∀ dom, matched_category pats dom = matched_category pats' dom) →
  classify_domains pats X = classify_domains pats' X.
Proof.
  intros Hext. unfold classify_domains.
  assert (set_fold (classify_step pats) (∅, ∅) X
          = set_fold (classify_step pats') (∅, ∅) X) as ->; [|done].
  unfold set_fold. simpl. apply foldr_ext; [|done..].
  intros dom acc. unfold classify_step. by rewrite Hext.
Qed.

End Shadowing.

(** X12. The first match wins, so an entry placed after one whose pattern
    occurs in its own never decides anything: with or without it, every set of
    domains gets the same summary. *)
Theorem shadowed_entry_is_dead (before mid after : list (string * string))
    (p1 c1 p2 c2 : string) (domains : gset string) :
  PyStr.contains p1 p2 = true →
  classify_domains (before ++ (p1, c1) :: mid ++ (p2, c2) :: after) domains
  = classify_domains (before ++ (p1, c1) :: mid ++ after) domains.
Proof.
  intros Hsub. apply classify_domains_ext. intros dom.
  by apply matched_category_shadowed.
Qed.

(** A more specific entry added at the end of the built-in list. *)
Lemma shadowed_entry_is_dead_witness :
  classify_domains
    (fallback_trackers ++ [("stats.g.doubleclick.net", "analytics")])
    {["stats.g.doubleclick.net"]}
  = classify_domains fallback_trackers {["stats.g.doubleclick.net"]}.
Proof.
  apply (shadowed_entry_is_dead [] (tail fallback_trackers) []
           "doubleclick.net" "ads" "stats.g.doubleclick.net" "analytics").
  reflexivity.
Defined.

(** The built-in list has no empty category; a domain that merely holds
    [doubleclick.net] somewhere in its name is filed under [ads]. *)
Lemma classify_domains_substring_match_witness :
  tracker_domains (classify_domains fallback_trackers {["doubleclick.network.example"]})
    !! "doubleclick.network.example" = Some "ads".
Proof.
  apply classify_domains_substring_match.
  - repeat constructor; done.
  - split; [by apply elem_of_singleton|].
    exists [], "doubleclick.net", (tail fallback_trackers).
    split; [reflexivity|]. split; [|constructor].
    by exists "", "work.example".
Defined.

(** The loop run over two domains in the order opposite to the one the set
    enumerates them in. *)
Lemma classify_loop_any_order_witness :
  foldr (classify_step fallback_trackers) (∅, ∅)
        (reverse (elements ({["ads.doubleclick.net"; "graph.facebook.com"]} : gset string)))
  = set_fold (classify_step fallback_trackers) (∅, ∅)
      ({["ads.doubleclick.net"; "graph.facebook.com"]} : gset string).
Proof. apply classify_loop_any_order. apply reverse_Permutation. Defined.

(** ** The shape of the claim set and the classifier cache *)

Section ClaimSet.

Lemma foldl_insert_dom {V} (pairs : list (string * V)) (d : gmap string V) :
  dom (foldl (fun d kv => <[kv.1 := kv.2]> d) d pairs)
  = list_to_set (map fst pairs) ∪ dom d.
Proof.
  revert d. induction pairs as [|[k v] pairs IH]; intros d; cbn [foldl map list_to_set fst snd].
  - by rewrite (left_id_L ∅ (∪)).
  - rewrite IH, dom_insert_L.
    by rewrite (assoc_L (∪)), (comm_L (∪) (list_to_set _) {[k]}).
Qed.

Lemma dict_of_dom {V} (pairs : list (string * V)) :
  dom (dict_of pairs) = list_to_set (map fst pairs).
Proof.
  unfold dict_of. rewrite foldl_insert_dom, dom_empty_L. by rewrite (right_id_L ∅ (∪)).
Qed.

Lemma keyword_claims_dom policy_text :
  dom (_keyword_extract_claims policy_text) = list_to_set claim_keys.
Proof. unfold _keyword_extract_claims. by rewrite dict_of_dom. Qed.

Lemma zero_shot_claims_dom labs scs :
  dom (zero_shot_claims labs scs) = list_to_set claim_keys.
Proof. unfold zero_shot_claims. by rewrite dict_of_dom. Qed.

Lemma extract_policy_claims_returns_dom env policy_text g :
  ∃ cl g', extract_policy_claims env policy_text g = (Returned cl, g')
    ∧ dom cl = list_to_set claim_keys.
Proof.
  destruct (extract_policy_claims_cases env policy_text g)
    as (cl & g' & Hrun & [[-> _]|(_ & c & _ & Hz)]); eexists _, g'; (split; [done|]).
  - apply keyword_claims_dom.
  - rewrite zero_shot_attempt_run in Hz.
    destruct (c policy_text candidate_labels) as [[[labs|] [scs|]]|e]; try done.
    injection Hz as <- _. apply zero_shot_claims_dom.
Qed.

Lemma after_init_global env g :
  _ZS_CLASSIFIER (after_init env g) = classifier_in_use env g
  ∧ ∃ w, warnings (after_init env g) = (warnings g ++ w)%list
      ∧ (length w ≤ 1)%nat
      ∧ (classifier_in_use env g ≠ None → w = []).
Proof.
  unfold after_init, classifier_in_use. rewrite init_zero_shot_run.
  destruct (_ZS_CLASSIFIER g) as [c|] eqn:Hc; simpl.
  - split; [done|]. exists []. rewrite app_nil_r. split_and!; [done|simpl; lia|done].
  - destruct (load_pipeline env) as [c|e]; simpl.
    + split; [done|]. exists []. rewrite app_nil_r. split_and!; [done|simpl; lia|done].
    + split; [done|]. eexists [_]. split_and!; [reflexivity|simpl; lia|done].
Qed.

End ClaimSet.

(** X13. Both strategies answer with the same nine keys: whatever the text,
    the environment and the cached classifier, the claim set
    [extract_policy_claims] returns has exactly the keys [mentions_location]
    to [mentions_security]. *)
Theorem extracted_claims_have_nine_keys (env : environment) (policy_text : string)
    (g : globals) :
  ∃ cl g', extract_policy_claims env policy_text g = (Returned cl, g')
    ∧ dom cl = list_to_set claim_keys
    ∧ size cl = 9%nat.
Proof.
  destruct (extract_policy_claims_returns_dom env policy_text g) as (cl & g' & Hrun & Hdom).
  exists cl, g'. split; [done|]. split; [done|].
  rewrite <- size_dom, Hdom. by vm_compute.
Qed.

(** X14. The module global after a call. On text whose trimmed length is below
    20 the call leaves the global and the log as they were. Otherwise the
    global holds the classifier that was in use: a cached one is kept (a
    failing classification does not evict it), a freshly loaded one is stored,
    and it is [None] after a failed load, which the next call tries again. The
    call adds at most one record to the log. *)
Theorem global_after_extract (env : environment) (policy_text : string) (g : globals) :
  _ZS_CLASSIFIER (extract_policy_claims env policy_text g).2
  = (if PyStr.len (PyStr.strip policy_text) <? 20 then _ZS_CLASSIFIER g
     else classifier_in_use env g)
  ∧ ∃ w, warnings (extract_policy_claims env policy_text g).2 = (warnings g ++ w)%list
      ∧ (length w ≤ 1)%nat
      ∧ ((PyStr.len (PyStr.strip policy_text) <? 20) = true → w = []).
Proof.
  destruct (Z.ltb_spec (PyStr.len (PyStr.strip policy_text)) 20) as [Hlt|Hge].
  { apply too_short_to_classify_iff in Hlt.
    rewrite extract_policy_claims_short by done. simpl.
    split; [done|]. exists []. rewrite app_nil_r. split_and!; [done|simpl; lia|done]. }
  assert (too_short_to_classify policy_text = false) as Hlong.
  { apply not_true_iff_false. rewrite too_short_to_classify_iff. lia. }
  destruct (after_init_global env g) as (Hglobal & w & Hw & Hlen & Hsilent).
  destruct (classifier_in_use env g) as [c|] eqn:Hc.
  - rewrite (extract_policy_claims_classifier env policy_text g c Hlong Hc).
    rewrite zero_shot_attempt_run. rewrite (Hsilent ltac:(done)), app_nil_r in Hw.
    destruct (c policy_text candidate_labels) as [[[labs|] [scs|]]|e]; simpl;
      (split; [done|]); rewrite Hw;
      first [ exists []; rewrite app_nil_r; split_and!; [done|simpl; lia|done]
            | eexists [_]; split_and!; [reflexivity|simpl; lia|done] ].
  - rewrite extract_policy_claims_no_classifier by done. simpl.
    split; [done|]. exists w. split_and!; [done|done|done].
Qed.

(** X15. Once a classifier is cached, the [transformers] package is not
    consulted any more: the call gives the same result and state in any two
    environments. *)
Theorem cached_classifier_is_used (env env' : environment) (policy_text : string)
    (g : globals) (c : classifier) :
  _ZS_CLASSIFIER g = Some c →
  extract_policy_claims env policy_text g = extract_policy_claims env' policy_text g.
Proof.
  intros Hc.
  assert (∀ e, classifier_in_use e g = Some c) as Huse.
  { intros e. unfold classifier_in_use. by rewrite Hc. }
  assert (∀ e, after_init e g = g) as Hinit.
  { intros e. unfold after_init. by rewrite init_zero_shot_run, Hc. }
  destruct (too_short_to_classify policy_text) eqn:Hshort.
  - by rewrite !extract_policy_claims_short.
  - rewrite (extract_policy_claims_classifier env policy_text g c Hshort (Huse env)).
    rewrite (extract_policy_claims_classifier env' policy_text g c Hshort (Huse env')).
    by rewrite !Hinit.
Qed.

(** With a cached classifier the missing package goes unnoticed. *)
Lemma cached_classifier_is_used_witness :
  extract_policy_claims env_no_transformers sixty_x cached_globals
  = extract_policy_claims env_answering sixty_x cached_globals.
Proof. by apply (cached_classifier_is_used _ _ _ _ half_scores). Defined.

(** ** Reading the classifier's answer *)

Section ZeroShotClaims.

Lemma dict_of_snoc {V} (pairs : list (string * V)) (k : string) (v : V) :
  dict_of (pairs ++ [(k, v)]) = <[k := v]> (dict_of pairs).
Proof. unfold dict_of. by rewrite foldl_app. Qed.

(** A dictionary built from pairs answers with the last pair of the key. *)
Lemma dict_of_lookup_last {V} (pairs : list (string * V)) (k : string) :
  dict_of pairs !! k = snd <$> List.find (fun p => String.eqb p.1 k) (reverse pairs).
Proof.
  induction pairs as [|[k' v] pairs IH] using rev_ind; [done|].
  rewrite dict_of_snoc, reverse_snoc. cbn [List.find fst].
  destruct (String.eqb_spec k' k) as [->|Hne].
  - by rewrite lookup_insert_eq.
  - by rewrite lookup_insert_ne.
Qed.

Lemma label_true_last labs scs label :
  label_true (dict_of (zip labs scs)) label
  = match last_score labs scs label with
    | Some s => PrimFloat.leb threshold s
    | None => false
    end.
Proof.
  unfold label_true, dict_get, last_score. rewrite dict_of_lookup_last.
  by destruct (List.find _ _).
Qed.

Lemma zero_shot_claims_lookup labs scs key label :
  (key, label) ∈ claim_labels →
  zero_shot_claims labs scs !! key = Some (label_true (dict_of (zip labs scs)) label).
Proof.
  intros Hin. unfold zero_shot_claims.
  set (labels := dict_of (zip labs scs)).
  unfold claim_labels in Hin.
  repeat (apply elem_of_cons in Hin as [[= -> ->]|Hin];
          [unfold dict_of; cbn [foldl fst snd];
           repeat (rewrite lookup_insert_ne by done); by rewrite lookup_insert_eq|]).
  by apply elem_of_nil in Hin.
Qed.

End ZeroShotClaims.

(** X16. Under the zero-shot strategy each claim is decided by one score: the
    last one the classifier returned under the claim's candidate label, which
    has to reach 0.35. A label the classifier did not return, or whose score
    is missing because it returned fewer scores than labels, counts as not
    mentioned. *)
Theorem zero_shot_claim_by_last_score (labs : list string) (scs : list float)
    (key label : string) :
  (key, label) ∈ claim_labels →
  zero_shot_claims labs scs !! key
  = Some (match last_score labs scs label with
          | Some s => PrimFloat.leb threshold s
          | None => false
          end)
  ∧ (label ∉ take (length scs) labs → zero_shot_claims labs scs !! key = Some false).
Proof.
  intros Hin. rewrite (zero_shot_claims_lookup labs scs key label Hin), label_true_last.
  split; [done|]. intros Hout.
  assert (last_score labs scs label = None) as ->; [|done].
  unfold last_score. destruct (List.find _ _) as [[l s]|] eqn:Hfind; [|done].
  apply find_some in Hfind as [Hp Heq]. apply String.eqb_eq in Heq. simpl in Heq. subst l.
  exfalso. apply Hout.
  apply list_elem_of_In in Hp. rewrite elem_of_reverse in Hp.
  apply list_elem_of_lookup in Hp as [i Hi].
  apply lookup_zip_with_Some in Hi as (l & s' & [= <- <-] & Hl & Hs).
  apply list_elem_of_lookup. exists i. rewrite lookup_take_lt; [done|].
  by eapply lookup_lt_Some.
Qed.

(** Two labels, the first returned twice, and one score too few. *)
Lemma zero_shot_claim_by_last_score_witness :
  zero_shot_claims
    ["collects location data"; "collects location data"; "collects contact data"]
    [0.75; 0.25]%float !! "mentions_location" = Some false
  ∧ zero_shot_claims
      ["collects location data"; "collects location data"; "collects contact data"]
      [0.75; 0.25]%float !! "mentions_contacts" = Some false.
Proof.
  split.
  - destruct (zero_shot_claim_by_last_score
                ["collects location data"; "collects location data"; "collects contact data"]
                [0.75; 0.25]%float "mentions_location" "collects location data")
      as [-> _]; [|reflexivity].
    apply elem_of_cons. by left.
  - apply (zero_shot_claim_by_last_score
             ["collects location data"; "collects location data"; "collects contact data"]
             [0.75; 0.25]%float "mentions_contacts" "collects contact data").
    + apply elem_of_cons. right. apply elem_of_cons. by left.
    + simpl. intros [?|[?|?%elem_of_nil]%elem_of_cons]%elem_of_cons; done.
Defined.

(** ** Counting the groups in use *)

Section GroupsHit.

Lemma num_groups_used_insert_fresh (d : gmap string bool) (k : string) (b : bool) :
  d !! k = None → num_groups_used (<[k := b]> d) = Z.b2z b + num_groups_used d.
Proof.
  intros Hk. unfold num_groups_used. rewrite map_fold_insert_L; [by destruct b| |done].
  intros j1 j2 [] [] y _ _ _; lia.
Qed.

Lemma dict_of_map_lookup {V} (f : string → V) (names : list string) (k : string) :
  dict_of (map (fun g => (g, f g)) names) !! k
  = if bool_decide (k ∈ names) then Some (f k) else None.
Proof.
  induction names as [|g names IH] using rev_ind; [done|].
  rewrite map_app. cbn [map]. rewrite dict_of_snoc.
  destruct (decide (g = k)) as [->|Hne].
  - rewrite lookup_insert_eq, bool_decide_eq_true_2; [done|].
    apply elem_of_app. right. by apply list_elem_of_singleton.
  - rewrite lookup_insert_ne, IH by done.
    rewrite (bool_decide_ext (k ∈ (names ++ [g])%list) (k ∈ names)); [done|].
    rewrite elem_of_app, list_elem_of_singleton. split; [|by left].
    intros [?|?]; [done|congruence].
Qed.

Lemma num_groups_used_dict_of_map (f : string → bool) (names : list string) :
  NoDup names →
  num_groups_used (dict_of (map (fun g => (g, f g)) names))
  = foldr (fun g n => Z.b2z (f g) + n) 0 names.
Proof.
  induction names as [|g names IH] using rev_ind; intros Hnd; [done|].
  apply NoDup_app in Hnd as (Hnd & Hfresh & _).
  rewrite map_app. cbn [map]. rewrite dict_of_snoc.
  rewrite num_groups_used_insert_fresh.
  - rewrite IH by done. rewrite foldr_app. cbn [foldr].
    generalize (Z.b2z (f g)). intros z. clear.
    induction names as [|x names IH]; cbn [foldr]; lia.
  - rewrite dict_of_map_lookup, bool_decide_eq_false_2; [done|].
    intros Hin. apply (Hfresh g Hin). by apply list_elem_of_singleton.
Qed.

Lemma group_names_NoDup : NoDup group_names.
Proof. apply (bool_decide_unpack _). by vm_compute. Qed.

Lemma group_permissions_as_table (perms : list string) :
  group_permissions perms
  = dict_of (map (fun g => (g, existsb (in_group SENSITIVE_PERMISSION_GROUPS g) perms))
                 group_names).
Proof.
  apply map_eq. intros k.
  by rewrite group_permissions_lookup, dict_of_map_lookup.
Qed.

Lemma num_groups_used_group_permissions (perms : list string) :
  num_groups_used (group_permissions perms) = groups_hit perms.
Proof.
  rewrite group_permissions_as_table.
  apply num_groups_used_dict_of_map, group_names_NoDup.
Qed.

Lemma existsb_subset {A} (f : A → bool) (l l' : list A) :
  (∀ x, x ∈ l → x ∈ l') → existsb f l = true → existsb f l' = true.
Proof.
  intros Hsub (x & Hin & Hx)%existsb_exists. apply existsb_exists.
  exists x. split; [|done]. by apply list_elem_of_In, Hsub, list_elem_of_In.
Qed.

Lemma groups_hit_mono (perms perms' : list string) :
  (∀ p, p ∈ perms → p ∈ perms') → groups_hit perms <= groups_hit perms'.
Proof.
  intros Hsub. unfold groups_hit.
  induction group_names as [|g names IH]; cbn [foldr]; [done|].
  assert (Z.b2z (existsb (in_group SENSITIVE_PERMISSION_GROUPS g) perms)
          <= Z.b2z (existsb (in_group SENSITIVE_PERMISSION_GROUPS g) perms')); [|lia].
  destruct (existsb _ perms) eqn:Hex; [|by destruct (existsb _ perms')].
  by rewrite (existsb_subset _ perms perms' Hsub Hex).
Qed.

Lemma groups_hit_bounds (perms : list string) : 0 <= groups_hit perms <= 7.
Proof.
  unfold groups_hit. change 7 with (Z.of_nat (length group_names)).
  induction group_names as [|g names IH]; cbn [foldr length]; [done|].
  destruct (existsb _ perms); simpl Z.b2z; lia.
Qed.

Lemma group_permissions_used_le (perms perms' : list string) :
  (∀ p, p ∈ perms → p ∈ perms') →
  used_le (group_permissions perms) (group_permissions perms').
Proof.
  intros Hsub g. unfold dict_get. rewrite !group_permissions_lookup.
  case_bool_decide; [|done]. simpl. by apply existsb_subset.
Qed.

End GroupsHit.

(** ** Penalties, reasons and their order *)

Section Penalties.

Lemma penalty_mono (b b' : bool) (acc acc' : Z * list string) weight (rs rs' : list string) :
  0 <= weight →
  (b' = true → b = true) →
  acc'.1 <= acc.1 →
  (if b' then (acc'.1 + weight, rs') else acc').1
  <= (if b then (acc.1 + weight, rs) else acc).1.
Proof.
  intros Hw Hb Hacc. destruct b'; [rewrite Hb by done|destruct b]; simpl; lia.
Qed.

Lemma check_mono used used' claimed claimed' acc acc' group_key claim_key label weight :
  0 <= weight →
  used_le used' used →
  claims_le claimed claimed' →
  acc'.1 <= acc.1 →
  (check used' claimed' acc' group_key claim_key label weight).1
  <= (check used claimed acc group_key claim_key label weight).1.
Proof.
  intros Hw Hused Hclaims Hacc. unfold check.
  destruct acc as [rp rs], acc' as [rp' rs'].
  apply (penalty_mono _ _ (rp, rs) (rp', rs')); [done| |done].
  intros [Hu Hc]%andb_true_iff. apply andb_true_iff. split; [by apply Hused|].
  apply negb_true_iff, not_true_iff_false. intros Hc'%Hclaims.
  by rewrite Hc' in Hc.
Qed.

Lemma accumulate_risk_mono claimed claimed' used used' :
  claims_le claimed claimed' →
  used_le used' used →
  num_groups_used used' <= num_groups_used used →
  (accumulate_risk claimed' used').1 <= (accumulate_risk claimed used).1.
Proof.
  intros Hclaims Hused Hn. unfold accumulate_risk. cbv zeta.
  apply penalty_mono; [lia| |].
  { rewrite !negb_true_iff, <- !not_true_iff_false. intros Hc' Hc. by apply Hc', Hclaims. }
  apply penalty_mono; [lia| |].
  { rewrite !negb_true_iff, <- !not_true_iff_false. intros Hc' Hc. by apply Hc', Hclaims. }
  apply penalty_mono; [lia|by apply Hused|].
  do 7 (apply check_mono; [lia|done|done|]).
  destruct (Z.leb_spec 5 (num_groups_used used')), (Z.leb_spec 5 (num_groups_used used));
    destruct (Z.leb_spec 3 (num_groups_used used')), (Z.leb_spec 3 (num_groups_used used));
    destruct (Z.leb_spec 1 (num_groups_used used')), (Z.leb_spec 1 (num_groups_used used));
    simpl; lia.
Qed.

Lemma clamp_risk_points_mono a b : a <= b → clamp_risk_points a <= clamp_risk_points b.
Proof. unfold clamp_risk_points. intros Hab. repeat case_match; lia. Qed.

Lemma penalty_inv (b : bool) (acc : Z * list string) weight (r : string) :
  5 <= weight <= 20 →
  r ≠ default_reason →
  reasons_inv acc →
  reasons_inv (if b then (acc.1 + weight, append acc.2 r) else acc).
Proof.
  intros Hw Hr [Hpts Hrs]. destruct b; [|done]. unfold reasons_inv, append. cbn [fst snd].
  rewrite length_app. cbn [length]. split; [lia|].
  apply Forall_app. split; [done|]. by constructor.
Qed.

Lemma check_inv used claimed acc group_key claim_key label weight :
  5 <= weight <= 20 →
  reasons_inv acc →
  reasons_inv (check used claimed acc group_key claim_key label weight).
Proof.
  intros Hw Hacc. unfold check. destruct acc as [rp rs].
  apply (penalty_inv _ (rp, rs)); [done| |done].
  intros Heq.
  apply (f_equal (fun s => match s with String c _ => c | EmptyString => "000"%char end)) in Heq.
  cbv in Heq. discriminate.
Qed.

Lemma accumulate_risk_inv claimed used : reasons_inv (accumulate_risk claimed used).
Proof.
  unfold accumulate_risk. cbv zeta.
  do 3 (apply penalty_inv; [lia|done|]).
  do 7 (apply check_inv; [lia|]).
  repeat case_match; unfold reasons_inv, append; cbn [fst snd app length];
    (split; [lia|repeat constructor; done]).
Qed.

Lemma accumulate_risk_zero_iff claimed used :
  (accumulate_risk claimed used).1 = 0 ↔ (accumulate_risk claimed used).2 = [].
Proof.
  destruct (accumulate_risk_inv claimed used) as [Hpts _].
  destruct (accumulate_risk claimed used) as [rp [|r rs]]; cbn [fst snd length] in *.
  - split; [done|lia].
  - split; [lia|done].
Qed.

End Penalties.

(** ** The keyword strategy on longer texts *)

Section KeywordMonotone.

Lemma lower_app (a b : string) : PyStr.lower (a ++ b) = PyStr.lower a ++ PyStr.lower b.
Proof.
  induction a as [|c a IH]; [done|].
  rewrite append_String. cbn [PyStr.lower]. by rewrite append_String, IH.
Qed.

Lemma contains_within (w t a b : string) :
  PyStr.contains w t = true → PyStr.contains w (a ++ t ++ b) = true.
Proof.
  rewrite !contains_spec. intros (x & y & ->).
  exists (a ++ x), (y ++ b). by rewrite !append_assoc.
Qed.

Lemma any_word_in_within (words : list string) (t a b : string) :
  any_word_in t words = true → any_word_in (a ++ t ++ b) words = true.
Proof.
  unfold any_word_in. intros (w & Hin & Hw)%existsb_exists.
  apply existsb_exists. exists w. split; [done|]. by apply contains_within.
Qed.

Lemma keyword_claims_within (text a b : string) :
  claims_le (_keyword_extract_claims text) (_keyword_extract_claims (a ++ text ++ b)).
Proof.
  intros key. unfold _keyword_extract_claims, dict_of, dict_get.
  cbn [foldl fst snd]. rewrite !lower_app.
  repeat match goal with
  | |- context [<[?k := _]> _ !! key] =>
      destruct (decide (k = key)) as [<-|?];
      [ rewrite !lookup_insert_eq; cbv beta iota delta [default from_option id];
        apply any_word_in_within
      | rewrite !(lookup_insert_ne _ k key) by done ]
  end.
  by rewrite lookup_empty.
Qed.

End KeywordMonotone.

(** X17. On sufficient text the default reason stands for a perfect score: the
    reasons are never empty, they are the single default reason exactly when
    the score is 100, and otherwise every penalty has its reason and the
    default one is absent. *)
Theorem default_reason_iff_perfect_score (env : environment) (permissions : list string)
    (policy_text : string) (g : globals) :
  50 <= PyStr.len (PyStr.strip policy_text) →
  ∃ r g', compute_privacy_risk env permissions policy_text g = (Returned r, g')
    ∧ reasons r ≠ []
    ∧ (score r = 100 ↔ reasons r = [default_reason])
    ∧ (score r < 100 → default_reason ∉ reasons r)
    ∧ 100 - score r <= 20 * Z.of_nat (length (reasons r)).
Proof.
  intros Hsuff. apply sufficient_policy_iff in Hsuff.
  destruct (compute_privacy_risk_cases env permissions policy_text g)
    as (r & g' & Hrun & [(Hins & _)|(_ & _ & _ & Hscore & _ & Hreasons)]); [congruence|].
  exists r, g'. split; [done|].
  destruct (accumulate_risk_inv (claims r) (used_groups r)) as [Hpts Hrs].
  pose proof (accumulate_risk_bounds (claims r) (used_groups r)) as Hb.
  unfold clamp_risk_points in Hscore.
  destruct (accumulate_risk (claims r) (used_groups r)) as [rp [|r1 rs]];
    cbn [fst snd length] in *; rewrite Hreasons.
  - assert (rp = 0) as -> by lia. simpl in Hscore. rewrite Hscore.
    split_and!; [done|done|lia|simpl; lia].
  - assert (score r < 100 ∧ 100 - score r <= rp) as [Hlt Hle].
    { destruct (90 <? rp) eqn:Hc; [apply Z.ltb_lt in Hc|apply Z.ltb_ge in Hc]; lia. }
    split_and!.
    + done.
    + split; [lia|]. intros [= -> ->]. by apply Forall_cons in Hrs as [? _].
    + intros _ Hin. rewrite Forall_forall in Hrs. by apply (Hrs _ Hin).
    + cbn [length]. lia.
Qed.

(** The two cases: a score of 100 with the default reason, and one of 72 with
    four reasons. *)
Lemma default_reason_iff_perfect_score_witness :
  ∃ r g', compute_privacy_risk env_no_transformers ["android.permission.INTERNET"]
            ("We share data with partners and keep it secure." ++ sixty_x) fresh_globals
          = (Returned r, g')
    ∧ (score r = 100 ↔ reasons r = [default_reason]).
Proof.
  destruct (default_reason_iff_perfect_score env_no_transformers
              ["android.permission.INTERNET"]
              ("We share data with partners and keep it secure." ++ sixty_x) fresh_globals)
    as (r & g' & Hrun & _ & Hiff & _); [by vm_compute|].
  exists r, g'. split; assumption.
Defined.

(** X18. Of two assessments made on sufficient text, the one with at least
    the claims and at most the permissions of the other has at least its
    score: a policy that discloses more never scores lower, and an application
    that requests more never scores higher. *)
Theorem score_monotone (env env' : environment) (permissions permissions' : list string)
    (policy_text policy_text' : string) (g g' st st' : globals) (r r' : risk_assessment) :
  compute_privacy_risk env permissions policy_text g = (Returned r, st) →
  compute_privacy_risk env' permissions' policy_text' g' = (Returned r', st') →
  50 <= PyStr.len (PyStr.strip policy_text) →
  50 <= PyStr.len (PyStr.strip policy_text') →
  claims_le (claims r) (claims r') →
  (∀ p, p ∈ permissions' → p ∈ permissions) →
  score r <= score r'.
Proof.
  intros Hrun Hrun' Hsuff%sufficient_policy_iff Hsuff'%sufficient_policy_iff Hclaims Hperms.
  destruct (compute_privacy_risk_cases env permissions policy_text g)
    as (r0 & g0 & Hrun0 & [(Hins & _)|(_ & _ & Hused & Hscore & _)]); [congruence|].
  destruct (compute_privacy_risk_cases env' permissions' policy_text' g')
    as (r0' & g0' & Hrun0' & [(Hins & _)|(_ & _ & Hused' & Hscore' & _)]); [congruence|].
  rewrite Hrun in Hrun0. rewrite Hrun' in Hrun0'. simplify_eq.
  rewrite Hscore, Hscore', Hused, Hused'.
  assert (clamp_risk_points (accumulate_risk (claims r0') (group_permissions permissions')).1
          <= clamp_risk_points (accumulate_risk (claims r0) (group_permissions permissions)).1);
    [|lia].
  apply clamp_risk_points_mono, accumulate_risk_mono; [done|..].
  - by apply group_permissions_used_le.
  - rewrite !num_groups_used_group_permissions. by apply groups_hit_mono.
Qed.

(** X19. Under the keyword strategy a claim, once found, stays: a text that
    holds another text holds every claim of it, whatever stands before and
    after. *)
Theorem keyword_claims_grow_with_text (text a b : string) :
  claims_le (_keyword_extract_claims text) (_keyword_extract_claims (a ++ text ++ b)).
Proof. apply keyword_claims_within. Qed.

(** A policy that names partners and security, against one of sixty [x], for
    an application with the camera permission and for one with none. *)
Lemma score_monotone_witness :
  score (assessment (_keyword_extract_claims sixty_x) ["android.permission.CAMERA"])
  <= score (assessment (_keyword_extract_claims ("partners secure " ++ sixty_x ++ "")) []).
Proof.
  apply (score_monotone env_no_transformers env_no_transformers
           ["android.permission.CAMERA"] []
           sixty_x ("partners secure " ++ sixty_x ++ "")
           fresh_globals fresh_globals
           (after_init env_no_transformers fresh_globals)
           (after_init env_no_transformers fresh_globals)).
  - by apply compute_privacy_risk_no_transformers; vm_compute.
  - by apply compute_privacy_risk_no_transformers; vm_compute.
  - by vm_compute.
  - by vm_compute.
  - apply keyword_claims_within.
  - by intros p ?%elem_of_nil.
Defined.

(** ** Which permissions fall in a group *)

Section GroupMembership.

Lemma endswith_spec (s p : string) : PyStr.endswith s p = true ↔ ∃ a, s = a ++ p.
Proof.
  induction s as [|c s IH]; cbn [PyStr.endswith].
  - rewrite orb_false_r, String.eqb_eq. split.
    + intros <-. by exists "".
    + intros ([|x a] & Ha); [done|]. by rewrite append_String in Ha.
  - rewrite orb_true_iff, String.eqb_eq, IH. split.
    + intros [<-|[a ->]]; [by exists ""|]. by exists (String c a).
    + intros ([|x a] & Ha); [by left|right].
      rewrite append_String in Ha. injection Ha as _ ->. by exists a.
Qed.

Lemma split_nonempty sep (s : string) : PyStr.split sep s ≠ [].
Proof.
  destruct s as [|c s]; cbn [PyStr.split]; [done|].
  destruct (Ascii.eqb c sep); [done|]. by destruct (PyStr.split sep s).
Qed.

Lemma split_app_sep sep (a b : string) :
  PyStr.split sep (a ++ String sep b) = (PyStr.split sep a ++ PyStr.split sep b)%list.
Proof.
  induction a as [|c a IH].
  - rewrite append_empty_l. cbn [PyStr.split]. by rewrite Ascii.eqb_refl.
  - rewrite append_String. cbn [PyStr.split]. rewrite IH.
    destruct (Ascii.eqb c sep); [done|].
    pose proof (split_nonempty sep a) as Hne. by destruct (PyStr.split sep a).
Qed.

Lemma split_no_sep sep (s : string) :
  PyStrExt.has_char sep s = false → PyStr.split sep s = [s].
Proof.
  induction s as [|c s IH]; cbn [PyStr.split PyStrExt.has_char]; [done|].
  intros [Hc Hs]%orb_false_iff. by rewrite Hc, IH.
Qed.

Lemma last_item_app (l1 l2 : list string) :
  l2 ≠ [] → PyStr.last_item (l1 ++ l2) = PyStr.last_item l2.
Proof.
  intros Hne. unfold PyStr.last_item.
  induction l1 as [|x l1 IH]; [done|]. cbn [app List.last].
  destruct (l1 ++ l2)%list eqn:Happ; [|done].
  by apply app_eq_nil in Happ as [_ ->].
Qed.

Lemma perm_suffix_no_dot (seg : string) :
  PyStrExt.has_char "." seg = false → perm_suffix seg = seg.
Proof. intros Hseg. unfold perm_suffix. by rewrite split_no_sep. Qed.

Lemma perm_suffix_after_dot (pre seg : string) :
  PyStrExt.has_char "." seg = false → perm_suffix (pre ++ "." ++ seg) = seg.
Proof.
  intros Hseg. unfold perm_suffix.
  change ("." ++ seg) with (String "." seg).
  rewrite split_app_sep, last_item_app by apply split_nonempty.
  by rewrite split_no_sep.
Qed.

Lemma in_group_spec (g perm : string) :
  in_group SENSITIVE_PERMISSION_GROUPS g perm = true
  ↔ ∃ sufs suf a, (g, sufs) ∈ SENSITIVE_PERMISSION_GROUPS ∧ suf ∈ sufs
      ∧ perm_suffix perm = a ++ suf.
Proof.
  unfold in_group, suffix_matches. rewrite existsb_exists. split.
  - intros ([g' sufs] & Hin & [Hg Hs]%andb_true_iff).
    apply String.eqb_eq in Hg. simpl in Hg. subst g'.
    apply existsb_exists in Hs as (suf & Hsuf & Hm).
    exists sufs, suf.
    assert (∃ a, perm_suffix perm = a ++ suf) as [a Ha].
    { apply orb_true_iff in Hm as [->%String.eqb_eq|Hm]; [by exists ""|].
      by apply endswith_spec. }
    exists a. by rewrite <- !list_elem_of_In in *.
  - intros (sufs & suf & a & Hin & Hsuf & Ha).
    exists (g, sufs). split; [by apply list_elem_of_In|].
    apply andb_true_iff. split; [by apply String.eqb_eq|].
    apply existsb_exists. exists suf. split; [by apply list_elem_of_In|].
    apply orb_true_iff. right. apply endswith_spec. by exists a.
Qed.

Lemma group_permissions_true_iff (perms : list string) (g : string) :
  group_permissions perms !! g = Some true
  ↔ ∃ perm sufs suf a, perm ∈ perms
      ∧ (g, sufs) ∈ SENSITIVE_PERMISSION_GROUPS ∧ suf ∈ sufs
      ∧ perm_suffix perm = a ++ suf.
Proof.
  rewrite group_permissions_lookup. split.
  - case_bool_decide; [|done]. intros [= (perm & Hin & Hg)%existsb_exists].
    apply in_group_spec in Hg as (sufs & suf & a & ?).
    exists perm, sufs, suf, a. by rewrite <- list_elem_of_In in Hin.
  - intros (perm & sufs & suf & a & Hin & Htab & Hsuf & Ha).
    rewrite bool_decide_eq_true_2.
    + f_equal. apply existsb_exists. exists perm. split; [by apply list_elem_of_In|].
      apply in_group_spec. by exists sufs, suf, a.
    + unfold group_names. apply list_elem_of_fmap. by exists (g, sufs).
Qed.

End GroupMembership.

(** X20. A group of the table is marked exactly when some permission of the
    list has a last dot-separated segment that ends with (or is) one of the
    group's suffixes. The last segment of [pre.seg], for [seg] without a dot,
    is [seg]; a permission without a dot is its own last segment. *)
Theorem group_marked_iff_suffix (perms : list string) (g : string) :
  (group_permissions perms !! g = Some true
   ↔ ∃ perm sufs suf a, perm ∈ perms
       ∧ (g, sufs) ∈ SENSITIVE_PERMISSION_GROUPS ∧ suf ∈ sufs
       ∧ perm_suffix perm = a ++ suf)
  ∧ (∀ pre seg, PyStrExt.has_char "." seg = false →
       perm_suffix (pre ++ "." ++ seg) = seg ∧ perm_suffix seg = seg).
Proof.
  split; [apply group_permissions_true_iff|].
  intros pre seg Hseg. split; [by apply perm_suffix_after_dot|by apply perm_suffix_no_dot].
Qed.

(** A vendor permission whose last segment only ends with a registered suffix. *)
Lemma group_marked_iff_suffix_witness :
  group_permissions ["com.vendor.permission.MY_FOREGROUND_SERVICE_CAMERA"] !! "camera"
  = Some true.
Proof.
  apply (group_marked_iff_suffix
           ["com.vendor.permission.MY_FOREGROUND_SERVICE_CAMERA"] "camera").
  exists "com.vendor.permission.MY_FOREGROUND_SERVICE_CAMERA",
    ["CAMERA"; "CAPTURE_VIDEO_OUTPUT"; "FOREGROUND_SERVICE_CAMERA"],
    "CAMERA", "MY_FOREGROUND_SERVICE_".
  split; [by apply list_elem_of_singleton|].
  split; [|split; [apply elem_of_cons; by left|reflexivity]].
  do 2 (apply elem_of_cons; right). apply elem_of_cons. by left.
Defined.

(** X21. The group mapping depends on the permissions as a set only: lists
    with the same elements, in any order and with any repetition, get the same
    mapping; and adding permissions never unmarks a group. *)
Theorem group_permissions_by_set (perms perms' : list string) :
  (∀ p, p ∈ perms → p ∈ perms') →
  used_le (group_permissions perms) (group_permissions perms')
  ∧ ((∀ p, p ∈ perms' → p ∈ perms) → group_permissions perms = group_permissions perms').
Proof.
  intros Hsub. split; [by apply group_permissions_used_le|].
  intros Hsup. apply map_eq. intros g. rewrite !group_permissions_lookup.
  case_bool_decide; [|done]. f_equal.
  destruct (existsb _ perms) eqn:Hex.
  - symmetry. by apply (existsb_subset _ perms perms').
  - destruct (existsb _ perms') eqn:Hex'; [|done].
    by rewrite (existsb_subset _ perms' perms Hsup Hex') in Hex.
Qed.

(** A list with a repetition against the one without. *)
Lemma group_permissions_by_set_witness :
  group_permissions ["a.CAMERA"; "b.READ_CONTACTS"; "a.CAMERA"]
  = group_permissions ["b.READ_CONTACTS"; "a.CAMERA"].
Proof.
  apply group_permissions_by_set.
  - intros p [->|[->|[->|?%elem_of_nil]%elem_of_cons]%elem_of_cons]%elem_of_cons;
      try done; repeat (first [apply elem_of_cons; by left | apply elem_of_cons; right]).
  - intros p [->|[->|?%elem_of_nil]%elem_of_cons]%elem_of_cons;
      try done; repeat (first [apply elem_of_cons; by left | apply elem_of_cons; right]).
Defined.

(** ** Reading the manifest *)

Section AnalyzeApk.

Lemma append_item_names_dicts (items perms : list manifest_value) :
  forallb is_dict items = true →
  append_item_names items perms
  = Returned (perms ++ List.filter value_truthy (map item_name items))%list.
Proof.
  revert perms. induction items as [|item items IH]; intros perms; cbn [forallb].
  - intros _. simpl. by rewrite app_nil_r.
  - intros [Hitem Hitems]%andb_true_iff. destruct item as [|d| |]; try done.
    cbn [append_item_names get_method mbind outcome_bind map List.filter item_name].
    rewrite IH by done. destruct (value_truthy _); [|done].
    unfold append. by rewrite <- app_assoc.
Qed.

Lemma append_item_names_not_dicts (items perms : list manifest_value) :
  forallb is_dict items = false → ∃ e, append_item_names items perms = Raised e.
Proof.
  revert perms. induction items as [|item items IH]; intros perms; cbn [forallb]; [done|].
  destruct item as [|d| |]; cbn [is_dict andb]; try (intros _; by eexists).
  intros Hitems. cbn [append_item_names get_method mbind outcome_bind]. by apply IH.
Qed.

Lemma append_names_dicts (data : manifest_value) (perms : list manifest_value) :
  items_are_dicts data = true →
  append_names data perms = Returned (perms ++ names_under data)%list.
Proof.
  destruct data as [s|d|items|]; cbn [items_are_dicts append_names names_under].
  - intros _. by rewrite app_nil_r.
  - intros _. cbn [item_name List.filter]. by destruct (value_truthy _); [|rewrite app_nil_r].
  - apply append_item_names_dicts.
  - intros _. by rewrite app_nil_r.
Qed.

Lemma append_names_not_dicts (data : manifest_value) (perms : list manifest_value) :
  items_are_dicts data = false → ∃ e, append_names data perms = Raised e.
Proof.
  destruct data as [s|d|items|]; cbn [items_are_dicts append_names]; try done.
  apply append_item_names_not_dicts.
Qed.

Lemma hashed_names_Returned (perms : list manifest_value) (names : list string) :
  hashed_names perms = Returned names ↔ perms = map MStr names.
Proof.
  revert names. induction perms as [|v perms IH]; intros names; cbn [hashed_names].
  - split; [intros [= <-]|intros Heq]; [done|]. by destruct names.
  - destruct v as [s|d|l|]; try (split; [done|]; by destruct names).
    destruct (hashed_names perms) as [names'|e] eqn:Hh; cbn [mbind outcome_bind].
    + split.
      * intros [= <-]. cbn [map]. f_equal. by apply IH.
      * destruct names as [|n names]; [done|]. cbn [map]. intros [= -> Hperms].
        apply IH in Hperms. by injection Hperms as ->.
    + split; [done|]. destruct names as [|n names]; [done|]. cbn [map].
      intros [= -> Hperms]. by apply IH in Hperms.
Qed.

Lemma map_MStr_inj (a b : list string) : map MStr a = map MStr b → a = b.
Proof.
  revert b. induction a as [|x a IH]; intros [|y b]; cbn [map]; try done.
  intros [= -> Hab]. f_equal. by apply IH.
Qed.

(** The two reading steps of [analyze_apk], on a manifest that is a dictionary. *)
Lemma analyze_apk_dict (d : gmap string manifest_value) :
  analyze_apk (Returned (MDict d))
  = (perms ← append_names (top_uses_permission d) [];
     perms ← append_names (nested_uses_permission d) perms;
     names ← hashed_names perms;
     Returned {| package_name := get_or_none d "@package";
                 permissions := sorted_set names |}).
Proof.
  unfold analyze_apk, top_uses_permission, nested_uses_permission, get_or_none.
  cbn [mbind outcome_bind get_method].
  destruct (d !! "uses-permission") as [data|]; cbn [default from_option id].
  - destruct (append_names data []) as [perms|e]; cbn [mbind outcome_bind]; [|done].
    destruct (d !! "manifest") as [[s|inner|l|]|]; cbn [append_names]; try done.
    by destruct (inner !! "uses-permission").
  - cbn [append_names mbind outcome_bind].
    destruct (d !! "manifest") as [[s|inner|l|]|]; cbn [append_names]; try done.
    by destruct (inner !! "uses-permission").
Qed.

Lemma analyze_apk_Returned (m : manifest_value) (info : apk_info) :
  analyze_apk (Returned m) = Returned info
  ↔ ∃ d names, m = MDict d
      ∧ items_are_dicts (top_uses_permission d) = true
      ∧ items_are_dicts (nested_uses_permission d) = true
      ∧ declared_names d = map MStr names
      ∧ info = {| package_name := get_or_none d "@package";
                  permissions := sorted_set names |}.
Proof.
  destruct m as [s|d|l|]; try (split; [done|]; by intros (? & ? & ? & _)).
  rewrite analyze_apk_dict. unfold declared_names.
  destruct (items_are_dicts (top_uses_permission d)) eqn:Htop.
  2:{ destruct (append_names_not_dicts _ [] Htop) as [e ->].
      split; [done|]. intros (? & ? & [= <-] & ? & _). congruence. }
  rewrite append_names_dicts by done. cbn [mbind outcome_bind app].
  destruct (items_are_dicts (nested_uses_permission d)) eqn:Hnested.
  2:{ destruct (append_names_not_dicts _ (names_under (top_uses_permission d)) Hnested)
        as [e ->].
      split; [done|]. intros (? & ? & [= <-] & ? & ? & _). congruence. }
  rewrite append_names_dicts by done. cbn [mbind outcome_bind].
  destruct (hashed_names _) as [names|e] eqn:Hh.
  - apply hashed_names_Returned in Hh. cbn [mbind outcome_bind]. split.
    + intros [= <-]. by exists d, names.
    + intros (d' & names' & [= <-] & _ & _ & Hdecl & ->).
      rewrite Hh in Hdecl. apply map_MStr_inj in Hdecl. by subst.
  - split; [done|]. intros (d' & names' & [= <-] & _ & _ & Hdecl & _).
    apply hashed_names_Returned in Hdecl. congruence.
Qed.

End AnalyzeApk.

Lemma names_under_truthy (data v : manifest_value) :
  v ∈ names_under data → value_truthy v = true.
Proof.
  intros Hin. apply list_elem_of_In in Hin.
  destruct data as [s|d|items|]; cbn [names_under] in Hin;
    try done; by apply filter_In in Hin as [_ ?].
Qed.

Lemma declared_names_truthy (d : gmap string manifest_value) (v : manifest_value) :
  v ∈ declared_names d → value_truthy v = true.
Proof. intros [?|?]%elem_of_app; by eapply names_under_truthy. Qed.

Lemma sorted_set_spec (names : list string) :
  Sorted str_le (sorted_set names)
  ∧ NoDup (sorted_set names)
  ∧ ∀ p, p ∈ sorted_set names ↔ p ∈ names.
Proof.
  unfold sorted_set.
  destruct (sorted_elements (list_to_set names)) as (Hsorted & Hnd & Hin & _).
  split; [done|]. split; [done|]. intros p. by rewrite Hin, elem_of_list_to_set.
Qed.

Lemma strings_or_not (l : list manifest_value) :
  (∃ names, l = map MStr names) ∨ (∃ v, v ∈ l ∧ ∀ s, v ≠ MStr s).
Proof.
  induction l as [|v l [[names ->]|(w & Hw & Hns)]].
  - left. by exists [].
  - destruct v as [s|d|k|].
    + left. by exists (s :: names).
    + right. exists (MDict d). split; [apply elem_of_cons; by left|done].
    + right. exists (MList k). split; [apply elem_of_cons; by left|done].
    + right. exists MNone. split; [apply elem_of_cons; by left|done].
  - right. exists w. split; [apply elem_of_cons; by right|done].
Qed.

(** X22. [analyze_apk] returns exactly on a manifest that is a dictionary,
    whose [uses-permission] lists (at the top and under [manifest]) hold
    dictionaries only, and whose permission names are strings; it then gives
    the [@package] value as it stands ([None] when absent) and the names of
    both places, sorted and without repetition. *)
Theorem analyze_apk_returns_iff (m : manifest_value) (info : apk_info) :
  analyze_apk (Returned m) = Returned info
  ↔ ∃ d names, m = MDict d
      ∧ items_are_dicts (top_uses_permission d) = true
      ∧ items_are_dicts (nested_uses_permission d) = true
      ∧ declared_names d = map MStr names
      ∧ info = {| package_name := get_or_none d "@package";
                  permissions := sorted_set names |}.
Proof. apply analyze_apk_Returned. Qed.

(** X23. The permission list [analyze_apk] returns is in ascending order,
    without repetition and without the empty string, and holds exactly the
    names declared at the top of the manifest or under [manifest]. *)
Theorem analyze_apk_permissions_sorted (manifest : outcome manifest_value)
    (info : apk_info) :
  analyze_apk manifest = Returned info →
  Sorted str_le (permissions info)
  ∧ NoDup (permissions info)
  ∧ ("" ∉ permissions info)
  ∧ ∃ d, manifest = Returned (MDict d)
      ∧ ∀ p, p ∈ permissions info ↔ MStr p ∈ declared_names d.
Proof.
  destruct manifest as [m|e]; [|done].
  intros (d & names & -> & _ & _ & Hdecl & ->)%analyze_apk_Returned. cbn [permissions].
  destruct (sorted_set_spec names) as (Hsorted & Hnd & Hin).
  assert (∀ p, p ∈ names ↔ MStr p ∈ declared_names d) as Hnames.
  { intros p. rewrite Hdecl. split.
    - intros Hp. apply list_elem_of_fmap. by exists p.
    - intros (q & [= ->] & Hq)%list_elem_of_fmap. done. }
  split; [done|]. split; [done|]. split.
  - rewrite Hin, Hnames. by intros ?%declared_names_truthy.
  - exists d. split; [done|]. intros p. by rewrite Hin.
Qed.

(** The sample manifest: the camera permission, declared twice, comes once. *)
Lemma analyze_apk_permissions_sorted_witness :
  ∃ info, analyze_apk (Returned sample_manifest) = Returned info
    ∧ permissions info = ["android.permission.CAMERA"; "android.permission.RECORD_AUDIO"]
    ∧ Sorted str_le (permissions info)
    ∧ NoDup (permissions info).
Proof.
  destruct (analyze_apk (Returned sample_manifest)) as [info|e] eqn:Hrun;
    [|by vm_compute in Hrun].
  exists info. split; [done|].
  destruct (analyze_apk_permissions_sorted _ _ Hrun) as (Hsorted & Hnd & _).
  split; [|done].
  apply (f_equal (fun o => match o with Returned i => permissions i | Raised _ => [] end)) in Hrun.
  rewrite <- Hrun. by vm_compute.
Defined.

(** X24. [analyze_apk] catches nothing. It raises when the manifest could not
    be read, when it is no dictionary, when a [uses-permission] list holds an
    item that is no dictionary, and when a permission name is a dictionary or
    a list; and in no other case. One such item or name is enough: the names
    read before it are lost with it. *)
Theorem analyze_apk_raises_iff (m : manifest_value) (e0 : string) :
  ((∃ e, analyze_apk (Returned m) = Raised e)
   ↔ is_dict m = false
     ∨ ∃ d, m = MDict d
         ∧ (items_are_dicts (top_uses_permission d) = false
            ∨ items_are_dicts (nested_uses_permission d) = false
            ∨ ∃ v, v ∈ declared_names d ∧ ∀ s, v ≠ MStr s))
  ∧ analyze_apk (Raised e0) = Raised e0.
Proof.
  split; [|done]. split.
  - intros [e He]. destruct m as [s|d|l|]; try by left. right. exists d. split; [done|].
    destruct (items_are_dicts (top_uses_permission d)) eqn:Htop; [|by left].
    destruct (items_are_dicts (nested_uses_permission d)) eqn:Hnested; [|by right; left].
    right. right. destruct (strings_or_not (declared_names d)) as [[names Hn]|?]; [|done].
    assert (analyze_apk (Returned (MDict d))
            = Returned {| package_name := get_or_none d "@package";
                          permissions := sorted_set names |}) as Hret.
    { apply analyze_apk_Returned. by exists d, names. }
    congruence.
  - intros Hbad. destruct (analyze_apk (Returned m)) as [info|e] eqn:Hrun; [|by exists e].
    apply analyze_apk_Returned in Hrun as (d & names & -> & Htop & Hnested & Hdecl & _).
    destruct Hbad as [?|(d' & [= <-] & [?|[?|(v & Hv & Hns)]])]; [done|congruence..|].
    rewrite Hdecl in Hv. apply list_elem_of_fmap in Hv as (s & -> & _). by destruct (Hns s).
Qed.

(** X25. From the manifest to the groups: on a manifest [analyze_apk] reads,
    the group mapping of the permissions it returns marks a group exactly when
    one of the declared names falls in it. *)
Theorem manifest_groups (m : manifest_value) (info : apk_info) (g : string) :
  analyze_apk (Returned m) = Returned info →
  group_permissions (permissions info) !! g = Some true
  ↔ ∃ d p, m = MDict d ∧ MStr p ∈ declared_names d
      ∧ in_group SENSITIVE_PERMISSION_GROUPS g p = true.
Proof.
  intros (d & names & -> & _ & _ & Hdecl & ->)%analyze_apk_Returned. cbn [permissions].
  destruct (sorted_set_spec names) as (_ & _ & Hin).
  rewrite group_permissions_lookup. split.
  - case_bool_decide; [|done]. intros [= (p & Hp & Hg)%existsb_exists].
    exists d, p. split; [done|]. split; [|done].
    rewrite Hdecl. apply list_elem_of_fmap. exists p. split; [done|].
    by apply Hin, list_elem_of_In.
  - intros (d' & p & [= <-] & Hp & Hg).
    rewrite Hdecl in Hp. apply list_elem_of_fmap in Hp as (q & [= <-] & Hq).
    rewrite bool_decide_eq_true_2.
    + f_equal. apply existsb_exists. exists p. split; [|done].
      by apply list_elem_of_In, Hin.
    + apply in_group_spec in Hg as (sufs & _ & _ & Htab & _).
      unfold group_names. apply list_elem_of_fmap. by exists (g, sufs).
Qed.

(** The sample manifest declares the camera permission. *)
Lemma manifest_groups_witness :
  ∃ info, analyze_apk (Returned sample_manifest) = Returned info
    ∧ group_permissions (permissions info) !! "camera" = Some true.
Proof.
  destruct (analyze_apk (Returned sample_manifest)) as [info|e] eqn:Hrun;
    [|by vm_compute in Hrun].
  exists info. split; [done|].
  apply (manifest_groups sample_manifest info "camera" Hrun).
  unfold sample_manifest. eexists _, "android.permission.CAMERA".
  split; [reflexivity|]. split; [|by vm_compute].
  apply list_elem_of_In. vm_compute. right. by left.
Defined.

(** ** Choosing the APK of a bundle *)

Section ChooseApk.

Lemma find_first {A} (f : A → bool) (l : list A) (x : A) :
  List.find f l = Some x →
  ∃ before after, l = (before ++ x :: after)%list ∧ f x = true
    ∧ Forall (fun a => f a = false) before.
Proof.
  induction l as [|y l IH]; cbn [List.find]; [done|].
  destruct (f y) eqn:Hy.
  - intros [= ->]. by exists [], l.
  - intros (before & after & -> & Hx & Hb)%IH.
    exists (y :: before), after. split; [done|]. split; [done|]. by constructor.
Qed.

Lemma find_none_Forall {A} (f : A → bool) (l : list A) :
  List.find f l = None → Forall (fun a => f a = false) l.
Proof.
  induction l as [|y l IH]; cbn [List.find]; [by constructor|].
  destruct (f y) eqn:Hy; [done|]. intros Hl. constructor; [done|by apply IH].
Qed.

Lemma head_insert_descending (key : string → Z) (x : string) (acc : list string) :
  head (insert_descending key x acc)
  = Some (match head acc with
          | Some y => if key y <? key x then x else y
          | None => x
          end).
Proof. destruct acc as [|y acc]; simpl; [done|]. by destruct (key y <? key x). Qed.

Lemma sorted_descending_snoc (key : string → Z) (names : list string) (x : string) :
  sorted_descending key (names ++ [x])
  = insert_descending key x (sorted_descending key names).
Proof. unfold sorted_descending. by rewrite foldl_app. Qed.

(** The head of the descending order is the first of the largest. *)
Lemma head_sorted_descending (key : string → Z) (names : list string) :
  names ≠ [] →
  ∃ m before after, head (sorted_descending key names) = Some m
    ∧ names = (before ++ m :: after)%list
    ∧ Forall (fun a => key a < key m) before
    ∧ Forall (fun a => key a <= key m) after.
Proof.
  induction names as [|x names IH] using rev_ind; [done|]. intros _.
  rewrite sorted_descending_snoc, head_insert_descending.
  destruct names as [|n0 names0].
  { exists x, [], []. by repeat split. }
  destruct IH as (m & before & after & -> & Heq & Hb & Ha); [done|].
  rewrite Heq. destruct (Z.ltb_spec (key m) (key x)) as [Hlt|Hge].
  - exists x, (before ++ m :: after)%list, []. split; [done|]. split; [done|].
    split; [|constructor].
    apply Forall_app. split; [|constructor; [done|]].
    + eapply Forall_impl; [exact Hb|]. simpl. lia.
    + eapply Forall_impl; [exact Ha|]. simpl. lia.
  - exists m, before, (after ++ [x])%list. split; [done|].
    split; [by rewrite <- app_assoc|]. split; [done|].
    apply Forall_app. split; [done|]. by repeat constructor.
Qed.

Lemma getinfo_Some (entries : list zip_entry) (name : string) (info : zip_entry) :
  getinfo entries name = Some info → info ∈ entries ∧ filename info = name.
Proof.
  induction entries as [|e entries IH]; cbn [getinfo]; [done|].
  destruct (getinfo entries name) as [later|].
  - intros [= <-]. destruct IH as [Hin Hname]; [done|].
    split; [apply elem_of_cons; by right|done].
  - destruct (String.eqb_spec (filename e) name); [|done].
    intros [= <-]. split; [apply elem_of_cons; by left|done].
Qed.

Lemma choose_apk_chosen (entries : list zip_entry) (chosen : string) :
  choose_apk entries = Some chosen →
  ∃ before after, apk_names entries = (before ++ chosen :: after)%list
    ∧ (is_base_apk chosen = true ∧ Forall (fun a => is_base_apk a = false) before
       ∨ Forall (fun a => is_base_apk a = false) (apk_names entries)
         ∧ Forall (fun a => member_size entries a < member_size entries chosen) before
         ∧ Forall (fun a => member_size entries a <= member_size entries chosen) after).
Proof.
  unfold choose_apk. fold (apk_names entries). cbv zeta.
  destruct (apk_names entries) as [|a0 apks] eqn:Hapks; [done|].
  fold is_base_apk.
  destruct (List.find is_base_apk (a0 :: apks)) as [b|] eqn:Hfind.
  - intros [= <-]. apply find_first in Hfind as (before & after & Heq & Hb & Hbefore).
    exists before, after. split; [done|]. by left.
  - apply find_none_Forall in Hfind.
    destruct (head_sorted_descending (member_size entries) (a0 :: apks))
      as (m & before & after & -> & Heq & Hb & Ha); [done|].
    intros [= <-]. exists before, after. split; [done|]. by right.
Qed.

Lemma choose_apk_None (entries : list zip_entry) :
  choose_apk entries = None ↔ apk_names entries = [].
Proof.
  unfold choose_apk. fold (apk_names entries). cbv zeta.
  destruct (apk_names entries) as [|a0 apks] eqn:Hapks; [done|]. split; [|done].
  destruct (List.find _ (a0 :: apks)); [done|].
  by destruct (head_sorted_descending (member_size entries) (a0 :: apks))
    as (m & ? & ? & -> & _).
Qed.

End ChooseApk.

(** X26. From a bundle the application takes the first member named
    [base.apk] (in any directory and case); when there is none, the largest
    member whose name ends in [.apk], the first of them when several are as
    large; and nothing exactly when no member's name ends in [.apk]. *)
Theorem choose_apk_base_or_largest (entries : list zip_entry) :
  (choose_apk entries = None ↔ apk_names entries = [])
  ∧ ∀ chosen, choose_apk entries = Some chosen →
      ∃ before after, apk_names entries = (before ++ chosen :: after)%list
        ∧ (is_base_apk chosen = true ∧ Forall (fun a => is_base_apk a = false) before
           ∨ Forall (fun a => is_base_apk a = false) (apk_names entries)
             ∧ Forall (fun a => member_size entries a < member_size entries chosen) before
             ∧ Forall (fun a => member_size entries a <= member_size entries chosen) after).
Proof. split; [apply choose_apk_None|apply choose_apk_chosen]. Qed.

(** The two sample bundles: the first [base.apk] wins over larger members, and
    of two largest members the first is taken. *)
Lemma choose_apk_base_or_largest_witness :
  choose_apk sample_bundle = Some "apks/Base.APK"
  ∧ choose_apk sample_bundle_without_base = Some "b.apk"
  ∧ ∃ before after,
      apk_names sample_bundle_without_base = (before ++ "b.apk" :: after)%list
      ∧ (is_base_apk "b.apk" = true ∧ Forall (fun a => is_base_apk a = false) before
         ∨ Forall (fun a => is_base_apk a = false) (apk_names sample_bundle_without_base)
           ∧ Forall (fun a => member_size sample_bundle_without_base a
                              < member_size sample_bundle_without_base "b.apk") before
           ∧ Forall (fun a => member_size sample_bundle_without_base a
                              <= member_size sample_bundle_without_base "b.apk") after).
Proof.
  split; [reflexivity|]. split; [reflexivity|].
  by apply (proj2 (choose_apk_base_or_largest sample_bundle_without_base)).
Defined.

(** X27. What [extract_apk_from_bundle] hands on is a member of the bundle:
    when it returns a path, the data written under it is the content of a
    member whose name ends in [.apk]; it returns [None] instead of raising. *)
Theorem extracted_apk_is_a_member (archive : outcome (list zip_entry))
    (tmp : outcome string) (path data : string) :
  extract_apk_from_bundle archive tmp = Some (path, data) →
  tmp = Returned path
  ∧ ∃ entries info, archive = Returned entries
      ∧ info ∈ entries
      ∧ PyStr.endswith (PyStr.lower (filename info)) ".apk" = true
      ∧ choose_apk entries = Some (filename info)
      ∧ read info = Returned data.
Proof.
  unfold extract_apk_from_bundle. destruct archive as [entries|e]; [|done].
  destruct (choose_apk entries) as [chosen|] eqn:Hchoose; [|done].
  destruct (getinfo entries chosen) as [info|] eqn:Hinfo; [|done].
  destruct (read info) as [data'|e] eqn:Hread; [|done].
  destruct tmp as [path'|e]; [|done]. intros [= -> ->]. split; [done|].
  apply getinfo_Some in Hinfo as [Hin <-].
  exists entries, info. split; [done|]. split; [done|]. split; [|done].
  apply choose_apk_chosen in Hchoose as (before & after & Hnames & _).
  assert (filename info ∈ apk_names entries) as Hmem.
  { rewrite Hnames. apply elem_of_app. right. apply elem_of_cons. by left. }
  apply list_elem_of_In in Hmem. unfold apk_names in Hmem.
  by apply filter_In in Hmem as [_ ?].
Qed.

(** The sample bundle, written to a temporary file. *)
Lemma extracted_apk_is_a_member_witness :
  extract_apk_from_bundle (Returned sample_bundle) (Returned "/tmp/tmpab12.apk")
  = Some ("/tmp/tmpab12.apk", "apks/Base.APK")
  ∧ choose_apk sample_bundle = Some "apks/Base.APK".
Proof.
  split; [reflexivity|].
  destruct (extracted_apk_is_a_member (Returned sample_bundle)
              (Returned "/tmp/tmpab12.apk") "/tmp/tmpab12.apk" "apks/Base.APK" eq_refl)
    as (_ & entries & info & [= <-] & _ & _ & Hchoose & Hread).
  reflexivity.
Defined.

(** ** The inspector of test_apk.py *)

Section InspectApk.

Lemma print_item_names_dicts (items : list manifest_value) (out : stdout) :
  forallb is_dict items = true →
  print_item_names items out = (Returned tt, (out ++ map item_line items)%list).
Proof.
  revert out. induction items as [|item items IH]; intros out; simpl.
  - by rewrite app_nil_r.
  - intros [Hitem Hitems]%andb_true_iff. destruct item as [s|d|l|]; try done. simpl.
    rewrite IH by done. by rewrite <- app_assoc.
Qed.

Lemma print_item_names_not_dicts (items : list manifest_value) (out : stdout) :
  forallb is_dict items = false →
  ∃ e out', print_item_names items out = (Raised e, out').
Proof.
  revert out. induction items as [|item items IH]; intros out; simpl; [done|].
  destruct item as [s|d|l|]; simpl; eauto.
Qed.

Lemma iterate_string_key (v : manifest_value) (out : stdout) :
  value_truthy v = true → (∀ items, v ≠ MList items) →
  ∃ e, match iterate v with
       | Raised e => (Raised e, out)
       | Returned items => print_item_names items out
       end = (Raised e, out).
Proof.
  intros Htruthy Hlist. destruct v as [s|d|l|]; simpl in *.
  - destruct s as [|c s]; [done|]. simpl. eauto.
  - apply negb_true_iff, bool_decide_eq_false in Htruthy.
    destruct (map_to_list d) as [|[k v] rest] eqn:Hd.
    + by apply map_to_list_empty_iff in Hd.
    + simpl. eauto.
  - by destruct (Hlist l).
  - done.
Qed.

Lemma inspect_apk_dict (d : gmap string manifest_value) :
  inspect_apk (Returned (MDict d))
  = if negb (value_truthy (uses_permission_or_empty d)) then
      (Returned tt, (header d ++ [[Text "  (No explicit permissions or none parsed)"]])%list)
    else
      match iterate (uses_permission_or_empty d) with
      | Raised e => (Raised e, header d)
      | Returned items => print_item_names items (header d)
      end.
Proof. reflexivity. Qed.

Lemma inspect_apk_Returned (m : manifest_value) :
  (inspect_apk (Returned m)).1 = Returned tt
  ↔ ∃ d, m = MDict d
      ∧ (value_truthy (uses_permission_or_empty d) = false
         ∨ ∃ items, uses_permission_or_empty d = MList items
             ∧ forallb is_dict items = true).
Proof.
  destruct m as [s|d|l|]; try by (split; [done|intros (? & ? & _)]).
  rewrite inspect_apk_dict. split.
  - intros Hrun. exists d. split; [done|].
    destruct (value_truthy (uses_permission_or_empty d)) eqn:Htruthy; [|by left].
    right. cbn [negb] in Hrun.
    destruct (uses_permission_or_empty d) as [s|d'|items|] eqn:Hu.
    + destruct (iterate_string_key (MStr s) (header d) Htruthy) as [e He]; [done|].
      by rewrite He in Hrun.
    + destruct (iterate_string_key (MDict d') (header d) Htruthy) as [e He]; [done|].
      by rewrite He in Hrun.
    + exists items. split; [done|]. cbn [iterate] in Hrun.
      destruct (forallb is_dict items) eqn:Hitems; [done|].
      destruct (print_item_names_not_dicts items (header d) Hitems) as (e & out' & He).
      by rewrite He in Hrun.
    + done.
  - intros (d' & [= <-] & [Hfalsy|(items & Hu & Hitems)]).
    + by rewrite Hfalsy.
    + rewrite Hu. destruct (value_truthy (MList items)); [|done].
      cbn [negb iterate]. by rewrite print_item_names_dicts.
Qed.

End InspectApk.

(** X28. The inspector returns exactly on a manifest that is a dictionary whose
    [uses-permission] value is absent or falsy, or is a list of dictionaries.
    For a list it prints, after the three header lines, one line per item in
    the order of the list, with the item's name or UNKNOWN. *)
Theorem inspect_apk_returns_iff (m : manifest_value) :
  ((inspect_apk (Returned m)).1 = Returned tt
   ↔ ∃ d, m = MDict d
       ∧ (value_truthy (uses_permission_or_empty d) = false
          ∨ ∃ items, uses_permission_or_empty d = MList items
              ∧ forallb is_dict items = true))
  ∧ ∀ d item items, m = MDict d →
      uses_permission_or_empty d = MList (item :: items) →
      forallb is_dict (item :: items) = true →
      (inspect_apk (Returned m)).2 = (header d ++ map item_line (item :: items))%list.
Proof.
  split; [apply inspect_apk_Returned|].
  intros d item items -> Hu Hitems. rewrite inspect_apk_dict, Hu.
  cbn [value_truthy negb iterate]. by rewrite print_item_names_dicts.
Qed.

(** X29. A manifest with a single permission, which the parser gives as a
    dictionary instead of a list of one, is read by [analyze_apk] and breaks
    the inspector: when nothing is nested under [manifest], [analyze_apk]
    returns the one permission, and [inspect_apk] raises after the three
    header lines, since the loop runs over the keys of the dictionary. *)
Theorem single_permission_breaks_inspector (d p : gmap string manifest_value)
    (name : string) :
  d !! "uses-permission" = Some (MDict p) →
  p !! "@android:name" = Some (MStr name) →
  name ≠ "" →
  d !! "manifest" = None →
  analyze_apk (Returned (MDict d))
  = Returned {| package_name := get_or_none d "@package"; permissions := [name] |}
  ∧ ∃ e, inspect_apk (Returned (MDict d)) = (Raised e, header d).
Proof.
  intros Hd Hp Hname Hnested. split.
  - apply analyze_apk_Returned. exists d, [name]. split; [done|].
    unfold declared_names, top_uses_permission, nested_uses_permission, get_or_none.
    rewrite Hd, Hnested. cbn [default from_option id items_are_dicts names_under item_name].
    unfold get_or_none. rewrite Hp. cbn [default from_option id List.filter value_truthy].
    assert (PyStr.truthy name = true) as -> by by destruct name.
    split; [done|]. split; [done|]. split; [done|].
    f_equal. unfold sorted_set.
    assert (list_to_set [name] = ({[name]} : gset string)) as ->
      by apply (right_id_L ∅ (∪)).
    by rewrite elements_singleton.
  - rewrite inspect_apk_dict. unfold uses_permission_or_empty. rewrite Hd.
    cbn [default from_option id].
    assert (value_truthy (MDict p) = true) as Htruthy.
    { simpl. apply negb_true_iff, bool_decide_eq_false. intros ->.
      by rewrite lookup_empty in Hp. }
    rewrite Htruthy. cbn [negb].
    by apply (iterate_string_key (MDict p) (header d) Htruthy).
Qed.

(** The manifest with the camera permission alone. *)
Lemma single_permission_breaks_inspector_witness :
  analyze_apk (Returned (MDict single_permission_manifest))
  = Returned {| package_name := MStr "org.example.app";
                permissions := ["android.permission.CAMERA"] |}
  ∧ ∃ e, inspect_apk (Returned (MDict single_permission_manifest))
         = (Raised e, header single_permission_manifest).
Proof.
  apply (single_permission_breaks_inspector single_permission_manifest
           {["@android:name" := MStr "android.permission.CAMERA"]}
           "android.permission.CAMERA"); [reflexivity|reflexivity|discriminate|reflexivity].
Defined.

(** The sample manifest, a list of three items: six calls of [print], the
    last for the item without a name. *)
Lemma inspect_apk_returns_iff_witness :
  (inspect_apk (Returned sample_manifest)).1 = Returned tt
  ∧ length (inspect_apk (Returned sample_manifest)).2 = 6%nat
  ∧ last (inspect_apk (Returned sample_manifest)).2
    = Some [Text "  -"; Value (MStr "UNKNOWN")].
Proof.
  destruct (inspect_apk_returns_iff sample_manifest) as [[_ Hreturns] Hlines].
  split; [|split; reflexivity].
  apply Hreturns. unfold sample_manifest. eexists. split; [reflexivity|].
  right. eexists. split; reflexivity.
Defined.
